(** * Confidence-interval calculators of [app.py]

    A shallow embedding of the statistical core of [app.py]
    ([validate_data], [calculate_confidence_intervals],
    [calculate_confidence_interval_se]) and the properties its
    specification states about it, followed by the rest of the file
    ([read_file], [plot_distribution], [main]) and further properties
    of the code.

    Numbers.  The program computes on numpy [float64] values, and the
    file has them twice.  In the first part a finite value is a real
    number and arithmetic on finite values is exact; what is not a
    finite number ([nan] from [0/0], and the [nan] and infinities that
    the quantile function returns outside the open unit interval) is
    the one value [NaN], which absorbs addition, subtraction and
    multiplication.  This idealised arithmetic carries the properties
    that do not turn on rounding or overflow: which branch is taken,
    which keys the mapping has and in which order, what is called, and
    inequalities that rounding to nearest preserves, stated for
    results that are finite numbers.  The module [F64] gives the two
    calculators again on IEEE 754 binary64 numbers, with numpy's
    summation; it carries the formulas of the intervals and the cases
    in which the idealised arithmetic and the program part company.

    Library calls.  [np.mean], [np.std], [np.sqrt] and
    [stats.norm.ppf] belong to numpy and scipy; the first three are
    modelled by their documented definitions, the normal quantile
    function is a parameter [ppf] of the development.  Every call of one of them
    is recorded in a log, so that statements about what a function
    evaluates (and in which order) can be made next to statements about
    what it returns. *)

From Stdlib Require Import Ascii String.
From Stdlib Require Import Reals Lra Lia List Bool Arith.
From Stdlib Require Floats ZArith Uint63.
Import ListNotations.
Local Open Scope R_scope.

(** ** Values *)

Inductive value : Type :=
| Num (r : R)
| NaN.

Definition lift2 (f : R -> R -> R) (a b : value) : value :=
  match a, b with
  | Num x, Num y => Num (f x y)
  | _, _ => NaN
  end.

Definition vadd : value -> value -> value := lift2 Rplus.
Definition vsub : value -> value -> value := lift2 Rminus.
Definition vmul : value -> value -> value := lift2 Rmult.

(** Division by zero is not a finite value.  (numpy gives [nan] for
    [0/0], the only division by zero this program performs on finite
    data.) *)
Definition vdiv (a b : value) : value :=
  match a, b with
  | Num x, Num y => if Req_dec_T y 0 then NaN else Num (x / y)
  | _, _ => NaN
  end.

Definition vsqrt (a : value) : value :=
  match a with
  | Num x => if Rle_dec 0 x then Num (sqrt x) else NaN
  | NaN => NaN
  end.

Declare Scope value_scope.
Delimit Scope value_scope with V.
Bind Scope value_scope with value.
Infix "+" := vadd : value_scope.
Infix "-" := vsub : value_scope.
Infix "*" := vmul : value_scope.
Infix "/" := vdiv : value_scope.

(** ** numpy and scipy, as documented *)

(** [umr_sum]: the sum of an array, [0.0] for the empty one. *)
Definition np_sum (a : list value) : value :=
  fold_left vadd a (Num 0).

Definition as_array (data : list R) : list value := map Num data.

(** [np.mean(a)] is [sum(a) / len(a)]. *)
Definition np_mean (data : list R) : value :=
  (np_sum (as_array data) / Num (INR (length data)))%V.

(** [np.var(a, ddof)]: the squared deviations from the mean are summed
    and divided by [max(len(a) - ddof, 0)]. *)
Definition np_var (data : list R) (ddof : nat) : value :=
  let arrmean := np_mean data in
  let x := map (fun a => (a - arrmean)%V) (as_array data) in
  let x := map (fun d => (d * d)%V) x in
  (np_sum x / Num (INR (length data - ddof)))%V.

(** [np.std(a, ddof)] is the square root of [np.var(a, ddof)]. *)
Definition np_std (data : list R) (ddof : nat) : value :=
  vsqrt (np_var data ddof).

(** ** The log of library calls *)

Inductive call : Type :=
| Call_mean
| Call_std (ddof : nat)
| Call_sqrt
| Call_ppf.

Definition M (A : Type) : Type := (A * list call)%type.

Definition ret {A} (a : A) : M A := (a, []).

Definition bind {A B} (m : M A) (k : A -> M B) : M B :=
  let (a, t) := m in
  let (b, t') := k a in
  (b, t ++ t').

Definition logged {A} (c : call) (a : A) : M A := (a, [c]).

(** What a computation returns, and what it called on the way. *)
Definition result {A} (m : M A) : A := fst m.
Definition calls {A} (m : M A) : list call := snd m.

Declare Scope monad_scope.
Delimit Scope monad_scope with monad.
Notation "x <- m ;; k" := (bind m (fun x => k))
  (at level 61, m at next level, right associativity) : monad_scope.
Local Open Scope monad_scope.

(** A [for] loop over a list that updates one local variable. *)
Fixpoint for_each {A S} (l : list A) (body : A -> S -> M S) (s : S) : M S :=
  match l with
  | [] => ret s
  | a :: l' => s' <- body a s ;; for_each l' body s'
  end.

Module np.
Definition mean (data : list R) : M value := logged Call_mean (np_mean data).
Definition std (data : list R) (ddof : nat) : M value :=
  logged (Call_std ddof) (np_std data ddof).
Definition sqrt (x : value) : M value := logged Call_sqrt (vsqrt x).
End np.

(** ** Python dictionaries with [float] keys

    A [dict] keeps its items in insertion order; assigning to a key
    that is present replaces the value in place and adds no item. *)

Definition dict (V : Type) : Type := list (R * V).

Fixpoint dict_set {V} (k : R) (v : V) (d : dict V) : dict V :=
  match d with
  | [] => [(k, v)]
  | (k', v') :: d' =>
      if Req_dec_T k k' then (k', v) :: d' else (k', v') :: dict_set k v d'
  end.

Fixpoint dict_get {V} (k : R) (d : dict V) : option V :=
  match d with
  | [] => None
  | (k', v') :: d' => if Req_dec_T k k' then Some v' else dict_get k d'
  end.

Definition dict_keys {V} (d : dict V) : list R := map fst d.

(** ** The program *)

Definition interval : Type := (value * value)%type.

Definition not_enough_data : string := "Not enough data points for analysis.".

(** [validate_data], lines 27-39. *)
Definition validate_data (data : list R) : M (bool * option string) :=
  if (length data <? 2)%nat then ret (false, Some not_enough_data)
  else ret (true, None).

(** The default of the parameter [confidence_levels]. *)
Definition default_confidence_levels : list R := [90 / 100; 95 / 100; 99 / 100].

Section Calculators.

(** [stats.norm.ppf], the quantile function of the standard normal
    distribution. *)
Variable ppf : R -> value.

Definition stats_norm_ppf (p : R) : M value := logged Call_ppf (ppf p).

(** [calculate_confidence_intervals], lines 42-66. *)
Definition calculate_confidence_intervals
    (data : list R) (confidence_levels : list R) : M (value * dict interval) :=
  mean <- np.mean data ;;
  std_dev <- np.std data 1 ;;
  let n := length data in
  let confidence_intervals : dict interval := [] in
  if (n <=? 1)%nat then ret (mean, [])
  else
    confidence_intervals <-
      for_each confidence_levels (fun confidence confidence_intervals =>
        z_value <- stats_norm_ppf ((1 + confidence) / 2) ;;
        sqrt_n <- np.sqrt (Num (INR n)) ;;
        let margin_of_error := (z_value * (std_dev / sqrt_n))%V in
        ret (dict_set confidence
               ((mean - margin_of_error)%V, (mean + margin_of_error)%V)
               confidence_intervals))
        confidence_intervals ;;
    ret (mean, confidence_intervals).

End Calculators.

(** [calculate_confidence_interval_se], lines 69-89. *)
Definition calculate_confidence_interval_se
    (data : list R) (se_value : R) : M (option interval) :=
  mean <- np.mean data ;;
  std_dev <- np.std data 1 ;;
  let n := length data in
  if (n <=? 1)%nat then ret None
  else
    sqrt_n <- np.sqrt (Num (INR n)) ;;
    let standard_error := (std_dev / sqrt_n)%V in
    let margin_of_error := (Num se_value * standard_error)%V in
    ret (Some ((mean - margin_of_error)%V, (mean + margin_of_error)%V)).

(** ** The quantities the specification speaks of *)

Definition Rsum (l : list R) : R := fold_right Rplus 0 l.

(** The arithmetic average of the sample. *)
Definition average (data : list R) : R := Rsum data / INR (length data).

(** The sum of the squared deviations from the average. *)
Definition sum_sq_dev (data : list R) : R :=
  Rsum (map (fun x => (x - average data) * (x - average data)) data).

(** The unbiased estimator: denominator [n - 1]. *)
Definition sample_stddev (data : list R) : R :=
  sqrt (sum_sq_dev data / (INR (length data) - 1)).

(** The population variant: denominator [n]. *)
Definition population_stddev (data : list R) : R :=
  sqrt (sum_sq_dev data / INR (length data)).

(** The two-sided critical value of a confidence level. *)
Definition z_of (ppf : R -> value) (c : R) : value := ppf ((1 + c) / 2).

(** The interval around [m] with half-width [e]. *)
Definition around (m : R) (e : value) : interval :=
  ((Num m - e)%V, (Num m + e)%V).

(** The standard error of the mean. *)
Definition standard_error_of (data : list R) : R :=
  sample_stddev data / sqrt (INR (length data)).

(** The interval that the loop body of the z calculator assigns to
    level [c]. *)
Definition z_interval (ppf : R -> value) (data : list R) (c : R) : interval :=
  around (average data) (z_of ppf c * Num (standard_error_of data)).

(** The margin of error as both calculators form it from a multiplier,
    and the interval around the mean that they return for it. *)
Definition margin_of_error (data : list R) (multiplier : value) : value :=
  (multiplier * (np_std data 1 / vsqrt (Num (INR (length data)))))%V.

Definition interval_for (data : list R) (multiplier : value) : interval :=
  ((np_mean data - margin_of_error data multiplier)%V,
   (np_mean data + margin_of_error data multiplier)%V).

(** Half of the distance between the two ends of an interval. *)
Definition half_width (iv : interval) : value :=
  ((snd iv - fst iv) / Num 2)%V.

(** The half-width of the interval that the z calculator associates
    with level [c]. *)
Definition z_margin (ppf : R -> value) (data : list R) (c : R) : option value :=
  option_map half_width
    (dict_get c (snd (result (calculate_confidence_intervals ppf data [c])))).

(** The half-width of the interval that the standard-error calculator
    returns for multiplier [k]. *)
Definition se_margin (data : list R) (k : R) : option value :=
  option_map half_width (result (calculate_confidence_interval_se data k)).

(** The dictionary after [for c in l: d[c] = f c]. *)
Definition assign_all {V} (f : R -> V) (l : list R) (d : dict V) : dict V :=
  fold_left (fun d c => dict_set c (f c) d) l d.

Definition memb (c : R) (ks : list R) : bool :=
  if in_dec Req_dec_T c ks then true else false.

Definition differs (c c' : R) : bool :=
  if Req_dec_T c' c then false else true.

Arguments memb : simpl never.
Arguments differs : simpl never.

(** A level list without its repetitions, first occurrences kept. *)
Fixpoint first_occurrences (l : list R) : list R :=
  match l with
  | [] => []
  | c :: l' => c :: filter (differs c) (first_occurrences l')
  end.

(** On the open unit interval [ppf] is finite and strictly increasing,
    and it vanishes at one half, as the normal quantile function does. *)
Definition quantile_like (ppf : R -> value) : Prop :=
  exists q : R -> R,
    (forall p, 0 < p -> p < 1 -> ppf p = Num (q p)) /\
    q (1 / 2) = 0 /\
    (forall p p', 0 < p -> p < p' -> p' < 1 -> q p < q p').

(** The quantile function of the uniform distribution on [[-1, 1]]: a
    concrete function that is [quantile_like]. *)
Definition uniform_ppf (p : R) : value :=
  if Rlt_dec 0 p then if Rlt_dec p 1 then Num (2 * p - 1) else NaN else NaN.

(** ** The same computation in binary64

    The definitions above compute on real numbers.  The module [F64]
    gives the numeric part of the program again on IEEE 754 binary64
    numbers (Rocq's primitive floats), which is what numpy and Python
    compute on: every operation rounds, a result too large becomes an
    infinity, and [nan] arises from [0/0], [inf - inf] and [0 * inf].
    It is used where rounding or overflow decide a property.

    [np.add.reduce] over a contiguous [float64] array adds the array to
    the identity [0.0] with numpy's pairwise summation: a plain loop
    below eight elements, eight running sums up to 128 elements, and a
    split in two halves (the first a multiple of eight) beyond. *)

Module F64.

Import Floats.
Local Open Scope float_scope.

(** A Python [int] as a [float]. *)
Definition of_nat (n : nat) : float :=
  of_uint63 (Uint63.of_Z (BinInt.Z.of_nat n)).

(** [res = start; for x in a: res += x]. *)
Definition add_all (start : float) (a : list float) : float :=
  fold_left add a start.

(** [r[j] += a[i + j]] for the eight [j]. *)
Definition add_lanes (r block : list float) : list float :=
  map (fun p => fst p + snd p) (combine r block).

(** The unrolled loop over [blocks] blocks of eight; what is left of the
    array comes back with the running sums. *)
Fixpoint add_blocks (blocks : nat) (r a : list float) : list float * list float :=
  match blocks with
  | O => (r, a)
  | S blocks' => add_blocks blocks' (add_lanes r (firstn 8 a)) (skipn 8 a)
  end.

(** numpy's [pairwise_sum]; the recursion is at most [fuel] deep, and
    the length of the array is always enough. *)
Fixpoint pairwise_sum (fuel : nat) (a : list float) : float :=
  let n := length a in
  if (n <? 8)%nat then add_all (-0) a
  else if (n <=? 128)%nat then
    match add_blocks ((n - n mod 8) / 8 - 1) (firstn 8 a) (skipn 8 a) with
    | ([r0; r1; r2; r3; r4; r5; r6; r7], rest) =>
        add_all (((r0 + r1) + (r2 + r3)) + ((r4 + r5) + (r6 + r7))) rest
    | _ => nan
    end
  else
    match fuel with
    | O => nan
    | S fuel' =>
        let n2 := (n / 2)%nat in
        let n2 := (n2 - n2 mod 8)%nat in
        pairwise_sum fuel' (firstn n2 a) + pairwise_sum fuel' (skipn n2 a)
    end.

(** [np.add.reduce(a)]. *)
Definition np_sum (a : list float) : float :=
  0 + pairwise_sum (length a) a.

(** [np.mean(a)]. *)
Definition np_mean (data : list float) : float :=
  np_sum data / of_nat (length data).

(** [np.var(a, ddof)]. *)
Definition np_var (data : list float) (ddof : nat) : float :=
  let arrmean := np_mean data in
  let x := map (fun a => a - arrmean) data in
  let x := map (fun d => d * d) x in
  np_sum x / of_nat (length data - ddof).

(** [np.std(a, ddof)]. *)
Definition np_std (data : list float) (ddof : nat) : float :=
  sqrt (np_var data ddof).

Module np.
Definition mean (data : list float) : M float := logged Call_mean (np_mean data).
Definition std (data : list float) (ddof : nat) : M float :=
  logged (Call_std ddof) (np_std data ddof).
Definition sqrt (x : float) : M float := logged Call_sqrt (PrimFloat.sqrt x).
End np.

(** A [dict] with [float] keys: a key is found where a stored key
    compares equal ([==]) to it, so [0.0] and [-0.0] are one key and a
    [nan] is never found again. *)
Definition dict (V : Type) : Type := list (float * V).

Fixpoint dict_set {V} (k : float) (v : V) (d : dict V) : dict V :=
  match d with
  | [] => [(k, v)]
  | (k', v') :: d' =>
      if k' =? k then (k', v) :: d' else (k', v') :: dict_set k v d'
  end.

Fixpoint dict_get {V} (k : float) (d : dict V) : option V :=
  match d with
  | [] => None
  | (k', v') :: d' => if k' =? k then Some v' else dict_get k d'
  end.

Definition interval : Type := (float * float)%type.

Section Calculators.

Variable ppf : float -> float.

Definition stats_norm_ppf (p : float) : M float := logged Call_ppf (ppf p).

(** [calculate_confidence_intervals], lines 42-66. *)
Definition calculate_confidence_intervals
    (data : list float) (confidence_levels : list float)
    : M (float * dict interval) :=
  mean <- np.mean data ;;
  std_dev <- np.std data 1 ;;
  let n := length data in
  let confidence_intervals : dict interval := [] in
  if (n <=? 1)%nat then ret (mean, [])
  else
    confidence_intervals <-
      for_each confidence_levels (fun confidence confidence_intervals =>
        z_value <- stats_norm_ppf ((1 + confidence) / 2) ;;
        sqrt_n <- np.sqrt (of_nat n) ;;
        let margin_of_error := z_value * (std_dev / sqrt_n) in
        ret (dict_set confidence
               (mean - margin_of_error, mean + margin_of_error)
               confidence_intervals))
        confidence_intervals ;;
    ret (mean, confidence_intervals).

End Calculators.

(** [calculate_confidence_interval_se], lines 69-89. *)
Definition calculate_confidence_interval_se
    (data : list float) (se_value : float) : M (option interval) :=
  mean <- np.mean data ;;
  std_dev <- np.std data 1 ;;
  let n := length data in
  if (n <=? 1)%nat then ret None
  else
    sqrt_n <- np.sqrt (of_nat n) ;;
    let standard_error := std_dev / sqrt_n in
    let margin_of_error := se_value * standard_error in
    ret (Some (mean - margin_of_error, mean + margin_of_error)).

(** The margin that both calculators form from a multiplier. *)
Definition margin_of (data : list float) (multiplier : float) : float :=
  multiplier * (np_std data 1 / PrimFloat.sqrt (of_nat (length data))).

(** The critical value of a level. *)
Definition z_of (ppf : float -> float) (c : float) : float :=
  ppf ((1 + c) / 2).

(** The interval that the loop body assigns to a level. *)
Definition z_interval (ppf : float -> float) (data : list float) (c : float)
    : interval :=
  (np_mean data - margin_of data (z_of ppf c),
   np_mean data + margin_of data (z_of ppf c)).

(** The dictionary after [for c in l: d[c] = f c]. *)
Definition assign_all {V} (f : float -> V) (l : list float) (d : dict V) : dict V :=
  fold_left (fun d c => dict_set c (f c) d) l d.

(** A quantile function for examples, that of the uniform distribution
    on [[-1, 1]]. *)
Definition uniform_ppf (p : float) : float := 2 * p - 1.

(** A level that is a number and that no other element of the
    sequence equals under [==] without being the same number (as
    [0.0] and [-0.0] would). *)
Definition own_key (c : float) (levels : list float) : Prop :=
  (c =? c) = true /\
  forall c', In c' levels -> (c =? c') = true \/ (c' =? c) = true -> c' = c.

End F64.

(** ** The rest of [app.py]: reading the upload and the page

    The page is modelled by the sequence of streamlit calls that one run
    of [main] makes.  What the widgets return (the uploaded file, the
    chosen column, the text of the levels, the multiplier) is an
    argument of [main].  pandas is a parameter: the two readers, which
    may raise, and the three queries that [main] makes of a data frame.
    A line that formats numbers into text is recorded with the numbers
    it formats.  Two steps of the page can raise on data that was read
    well, and are parameters too: [plt.hist] (on data whose range is not
    finite) and [int(confidence * 100)] (when the product is not
    finite); [main] catches what they raise together with what the
    readers raise.  The memoisation that [st.cache] adds to [read_file]
    does not change what a call returns and is left out. *)

(** [str.endswith]. *)
Fixpoint endswith (s suffix : string) : bool :=
  if String.eqb s suffix then true
  else match s with
       | EmptyString => false
       | String _ s' => endswith s' suffix
       end.

(** [s.split(',')]: the pieces between the commas, never an empty list. *)
Fixpoint split_commas (s : string) : list string :=
  match s with
  | EmptyString => [EmptyString]
  | String c s' =>
      if Ascii.eqb c ","%char then EmptyString :: split_commas s'
      else match split_commas s' with
           | [] => [String c EmptyString]
           | piece :: pieces => String c piece :: pieces
           end
  end.

(** The number of commas of a text. *)
Fixpoint count_commas (s : string) : nat :=
  match s with
  | EmptyString => 0
  | String c s' => (if Ascii.eqb c ","%char then 1 else 0) + count_commas s'
  end.

(** What a call that may raise comes back with; an exception is kept
    as its message. *)
Inductive outcome (A : Type) : Type :=
| Returned (a : A)
| Raised (e : string).
Arguments Returned {A} a.
Arguments Raised {A} e.

(** The object that [st.file_uploader] returns. *)
Record UploadedFile : Type := { name : string; content : string }.

(** The figure that [plot_distribution] draws. *)
Record figure : Type := {
  figsize : nat * nat;
  hist_data : list R;
  bins : nat;
  edgecolor : string;
  alpha : R;
  title : string;
  xlabel : string;
  ylabel : string
}.

(** [str(x)] of an optional text. *)
Definition str_of (x : option string) : string :=
  match x with
  | Some s => s
  | None => "None"%string
  end.

(** The truth value of a text: any text but the empty one. *)
Definition truthy (s : string) : bool :=
  match s with
  | EmptyString => false
  | String _ _ => true
  end.

Definition empty_or_invalid : string :=
  "The uploaded file is empty or invalid."%string.
Definition invalid_levels : string :=
  "Invalid confidence levels. Please enter numbers separated by commas."%string.
Definition not_enough_for_se : string :=
  "Not enough data to calculate the confidence interval using standard errors."%string.
Definition no_numeric_columns : string :=
  "No numerical columns found in the uploaded file."%string.
Definition please_upload : string :=
  "Please upload a CSV or Excel file to proceed."%string.

Section Application.

Local Open Scope string_scope.
Local Open Scope list_scope.

(** Data frames and what the program asks of pandas. *)
Variable DF : Type.
Variable read_csv : UploadedFile -> outcome DF.
Variable read_excel : UploadedFile -> outcome DF.
(** [df.empty]. *)
Variable df_empty : DF -> bool.
(** [df.select_dtypes(include=[np.number]).columns.tolist()]. *)
Variable numeric_columns_of : DF -> list string.
(** [df[column].dropna()]. *)
Variable column_dropna : DF -> string -> list R.

(** [float(x)] of a text, [None] where it raises [ValueError]. *)
Variable py_float : string -> option R.

(** The message of what [plt.hist] raises on the data, if it raises. *)
Variable hist_error : list R -> option string.

(** [int(confidence * 100)]. *)
Variable int_percent : R -> outcome BinNums.Z.

Variable ppf : R -> value.

(** The streamlit calls of the program. *)
Inductive st_call : Type :=
| st_title (body : string)
| st_file_uploader (label : string) (types : list string)
| st_error (body : string)
| st_info (body : string)
| st_write (body : string)
| st_dataframe (df : DF)
| st_selectbox (label : string) (options : list string)
| st_subheader (body : string)
| st_pyplot (fig : figure)
| st_text_input (label value : string)
| st_number_input (label : string) (min_value value step : R)
| st_write_mean (mean : value)
| st_write_interval (percent : BinNums.Z) (iv : interval)
| st_write_se_interval (se_value : R) (iv : interval).

Definition is_error (c : st_call) : bool :=
  match c with
  | st_error _ => true
  | _ => false
  end.

(** [read_file], lines 9-24. *)
Definition read_file (uploaded_file : UploadedFile) : outcome (option DF) :=
  if endswith (name uploaded_file) ".csv" then
    match read_csv uploaded_file with
    | Returned df => Returned (Some df)
    | Raised e => Raised e
    end
  else if endswith (name uploaded_file) ".xlsx" then
    match read_excel uploaded_file with
    | Returned df => Returned (Some df)
    | Raised e => Raised e
    end
  else Returned None.

(** [plot_distribution], lines 92-105: the figure is shown unless
    [plt.hist] raises. *)
Definition plot_distribution (data : list R) (column_name : string)
    : outcome (list st_call) :=
  match hist_error data with
  | Some e => Raised e
  | None =>
      Returned
        [st_pyplot {| figsize := (8, 6)%nat;
                      hist_data := data;
                      bins := 20;
                      edgecolor := "k";
                      alpha := 7 / 10;
                      title := String.append "Frequency Distribution of " column_name;
                      xlabel := column_name;
                      ylabel := "Frequency" |}]
  end.

(** Lines 165-167: one line for every item of the mapping, up to the
    first whose percentage cannot be formed; the lines written and what
    was raised, if anything. *)
Fixpoint write_intervals (confidence_intervals : dict interval)
    : list st_call * option string :=
  match confidence_intervals with
  | [] => ([], None)
  | (confidence, interval) :: rest =>
      match int_percent confidence with
      | Raised e => ([], Some e)
      | Returned percent =>
          let (written, raised) := write_intervals rest in
          (st_write_interval percent interval :: written, raised)
      end
  end.

(** The handler of line 182. *)
Definition error_reading_file (e : string) : st_call :=
  st_error (String.append "Error reading file: " e).

(** [[float(x) for x in pieces]], [None] where a [float(x)] raises. *)
Fixpoint floats_of (pieces : list string) : option (list R) :=
  match pieces with
  | [] => Some []
  | x :: pieces' =>
      match py_float x with
      | None => None
      | Some v =>
          match floats_of pieces' with
          | None => None
          | Some vs => Some (v :: vs)
          end
      end
  end.

(** Line 155. *)
Definition parse_confidence_levels (confidence_input : string) : option (list R) :=
  floats_of (split_commas confidence_input).

(** [main], lines 108-185.  [uploaded_file] is what the uploader
    returns, [selection] the column that the user picks among the
    options of the select box, [confidence_input] the text of the
    levels and [se_value] the number of standard errors. *)
Definition main
    (uploaded_file : option UploadedFile) (selection : list string -> string)
    (confidence_input : string) (se_value : R) : list st_call :=
  st_title "Confidence Interval Calculator" ::
  st_file_uploader "Upload your CSV or Excel file" ["csv"; "xlsx"] ::
  match uploaded_file with
  | Some uploaded_file =>
    match read_file uploaded_file with
    | Raised e => [error_reading_file e]
    | Returned None => [st_error empty_or_invalid]
    | Returned (Some df) =>
      if df_empty df then [st_error empty_or_invalid]
      else
        st_write "Here is a preview of your uploaded file:" ::
        st_dataframe df ::
        let numeric_columns := numeric_columns_of df in
        match numeric_columns with
        | [] => [st_error no_numeric_columns]
        | _ :: _ =>
          let selected_column := selection numeric_columns in
          st_selectbox "Select the column with numerical data" numeric_columns ::
          if truthy selected_column then
            let data := column_dropna df selected_column in
            let '(is_valid, error_message) := result (validate_data data) in
            if negb is_valid then [st_error (str_of error_message)]
            else
              st_subheader
                (String.append "Frequency Distribution of " selected_column) ::
              match plot_distribution data selected_column with
              | Raised e => [error_reading_file e]
              | Returned plot =>
                plot ++
                st_subheader "Confidence Intervals based on Z-scores" ::
                st_text_input
                  "Enter confidence levels (comma-separated, e.g., 0.90, 0.95, 0.99)"
                  "0.90, 0.95, 0.99" ::
                match parse_confidence_levels confidence_input with
                | None => [st_error invalid_levels]
                | Some confidence_levels =>
                  let '(mean, confidence_intervals) :=
                    result (calculate_confidence_intervals ppf data confidence_levels) in
                  st_write_mean mean ::
                  match write_intervals confidence_intervals with
                  | (written, Some e) => written ++ [error_reading_file e]
                  | (written, None) =>
                    written ++
                    st_subheader "Confidence Interval based on Standard Errors" ::
                    st_number_input
                      "Enter the number of standard errors (e.g., 1.96 for 95%)"
                      0 (196 / 100) (1 / 100) ::
                    let ci_se :=
                      result (calculate_confidence_interval_se data se_value) in
                    match ci_se with
                    | Some ci_se => [st_write_se_interval se_value ci_se]
                    | None => [st_error not_enough_for_se]
                    end
                  end
                end
              end
          else []
        end
    end
  | None => [st_info please_upload]
  end.

End Application.

Arguments st_title {DF}.
Arguments st_file_uploader {DF}.
Arguments st_error {DF}.
Arguments st_info {DF}.
Arguments st_write {DF}.
Arguments st_dataframe {DF}.
Arguments st_selectbox {DF}.
Arguments st_subheader {DF}.
Arguments st_pyplot {DF}.
Arguments st_text_input {DF}.
Arguments st_number_input {DF}.
Arguments st_write_mean {DF}.
Arguments st_write_interval {DF}.
Arguments st_write_se_interval {DF}.
Arguments is_error {DF}.
Arguments read_file {DF}.
Arguments plot_distribution {DF}.
Arguments write_intervals {DF}.
Arguments error_reading_file {DF}.
Arguments main {DF}.

(** The percentage of a level whose percentage can be formed. *)
Definition percent_or_zero (int_percent : R -> outcome BinNums.Z) (c : R)
    : BinNums.Z :=
  match int_percent c with
  | Returned p => p
  | Raised _ => BinNums.Z0
  end.

(** What a reader came back with, as [read_file] passes it on. *)
Definition passed_on {DF} (o : outcome DF) : outcome (option DF) :=
  match o with
  | Returned df => Returned (Some df)
  | Raised e => Raised e
  end.

(** The texts between commas, joined by commas again. *)
Fixpoint join_commas (pieces : list string) : string :=
  match pieces with
  | [] => EmptyString
  | [piece] => piece
  | piece :: pieces' => String.append piece (String ","%char (join_commas pieces'))
  end.

(** A data frame of numeric columns only, for examples: each column is
    a name and its cells, [None] for a missing cell. *)
Definition toy_frame : Type := list (string * list (option R)).

Definition toy_empty (df : toy_frame) : bool :=
  match df with
  | [] => true
  | (_, cells) :: _ => match cells with [] => true | _ :: _ => false end
  end.

Definition toy_columns (df : toy_frame) : list string := map fst df.

Fixpoint present (cells : list (option R)) : list R :=
  match cells with
  | [] => []
  | Some x :: cells' => x :: present cells'
  | None :: cells' => present cells'
  end.

Fixpoint toy_column (df : toy_frame) (column : string) : list R :=
  match df with
  | [] => []
  | (c, cells) :: df' =>
      if String.eqb c column then present cells else toy_column df' column
  end.

(** A reader for examples: every file holds the one column [x] with
    the cells 1, missing, 3. *)
Definition toy_reader (f : UploadedFile) : outcome toy_frame :=
  Returned [("x"%string, [Some 1; None; Some 3])].

(** A histogram for examples: it is drawn for every sample. *)
Definition toy_hist (data : list R) : option string := None.

(** A percentage for examples: the integer part of a hundred times a
    level between 0 and 1. *)
Definition toy_percent (confidence : R) : outcome BinNums.Z :=
  if Rle_dec 0 confidence then
    if Rle_dec confidence 1 then Returned (Int_part (confidence * 100))
    else Raised "cannot convert float infinity to integer"%string
  else Raised "cannot convert float infinity to integer"%string.

(** A [float] for examples: it knows the texts "0.5" and " 0.25". *)
Definition toy_float (x : string) : option R :=
  if String.eqb x "0.5"%string then Some (1 / 2)
  else if String.eqb x " 0.25"%string then Some (1 / 4)
  else None.

Definition first_option (options : list string) : string :=
  match options with
  | [] => EmptyString
  | o :: _ => o
  end.

(** ** Arithmetic on finite values *)

Lemma np_sum_from (l : list R) (a : R) :
  fold_left vadd (map Num l) (Num a) = Num (a + Rsum l).
Proof.
  revert a; induction l as [|x l IH]; intros a; simpl.
  - f_equal; lra.
  - rewrite IH. f_equal; lra.
Qed.

Lemma np_sum_nums (l : list R) : np_sum (map Num l) = Num (Rsum l).
Proof.
  unfold np_sum. rewrite np_sum_from. f_equal; lra.
Qed.

Lemma vdiv_num (x y : R) : y <> 0 -> (Num x / Num y)%V = Num (x / y).
Proof.
  intros Hy. unfold vdiv. destruct (Req_dec_T y 0); [contradiction | reflexivity].
Qed.

Lemma vdiv_zero (a : value) : (a / Num 0)%V = NaN.
Proof.
  destruct a as [x|]; simpl; [|reflexivity].
  destruct (Req_dec_T 0 0); [reflexivity | congruence].
Qed.

Lemma vsqrt_num (x : R) : 0 <= x -> vsqrt (Num x) = Num (sqrt x).
Proof.
  intros Hx. unfold vsqrt. destruct (Rle_dec 0 x); [reflexivity | contradiction].
Qed.

Lemma INR_length_pos {A} (l : list A) : (1 <= length l)%nat -> 0 < INR (length l).
Proof. intros H. apply lt_0_INR. lia. Qed.

Lemma sqrt_length_pos {A} (l : list A) :
  (1 <= length l)%nat -> 0 < sqrt (INR (length l)).
Proof. intros H. apply sqrt_lt_R0, INR_length_pos, H. Qed.

Lemma Rsum_squares_nonneg (f : R -> R) (l : list R) :
  0 <= Rsum (map (fun x => f x * f x) l).
Proof.
  induction l as [|x l IH]; simpl; [lra|].
  pose proof (Rle_0_sqr (f x)) as Hsq. unfold Rsqr in Hsq. lra.
Qed.

Lemma sum_sq_dev_nonneg (data : list R) : 0 <= sum_sq_dev data.
Proof.
  unfold sum_sq_dev. apply (Rsum_squares_nonneg (fun x => x - average data)).
Qed.

(** ** The moments that numpy returns *)

Lemma np_mean_average (data : list R) :
  (1 <= length data)%nat -> np_mean data = Num (average data).
Proof.
  intros Hn. unfold np_mean, as_array, average.
  rewrite np_sum_nums. apply vdiv_num.
  pose proof (INR_length_pos data Hn). lra.
Qed.

Lemma np_mean_empty : np_mean [] = NaN.
Proof. exact (vdiv_zero (np_sum (as_array []))). Qed.

Lemma np_var_finite (data : list R) (ddof : nat) :
  (ddof < length data)%nat ->
  np_var data ddof = Num (sum_sq_dev data / INR (length data - ddof)).
Proof.
  intros Hn. unfold np_var, as_array.
  rewrite np_mean_average by lia.
  rewrite !map_map. simpl.
  rewrite <- (map_map (fun x => (x - average data) * (x - average data)) Num).
  rewrite np_sum_nums. apply vdiv_num.
  assert (0 < INR (length data - ddof)) by (apply lt_0_INR; lia). lra.
Qed.

Lemma np_std_finite (data : list R) (ddof : nat) :
  (ddof < length data)%nat ->
  np_std data ddof = Num (sqrt (sum_sq_dev data / INR (length data - ddof))).
Proof.
  intros Hn. unfold np_std. rewrite np_var_finite by exact Hn.
  apply vsqrt_num.
  assert (0 < INR (length data - ddof)) by (apply lt_0_INR; lia).
  apply Rmult_le_pos; [apply sum_sq_dev_nonneg|].
  left. apply Rinv_0_lt_compat. assumption.
Qed.

Lemma np_std_sample (data : list R) :
  (2 <= length data)%nat -> np_std data 1 = Num (sample_stddev data).
Proof.
  intros Hn. rewrite np_std_finite by lia. unfold sample_stddev.
  rewrite minus_INR by lia. reflexivity.
Qed.

Lemma np_std_population (data : list R) :
  (1 <= length data)%nat -> np_std data 0 = Num (population_stddev data).
Proof.
  intros Hn. rewrite np_std_finite by lia. unfold population_stddev.
  rewrite Nat.sub_0_r. reflexivity.
Qed.

Lemma np_std_undefined (data : list R) :
  (length data <= 1)%nat -> np_std data 1 = NaN.
Proof.
  intros Hn. unfold np_std, np_var.
  replace (length data - 1)%nat with 0%nat by lia.
  change (INR 0) with 0. rewrite vdiv_zero. reflexivity.
Qed.

(** ** Running logged computations *)

Lemma result_bind {A B} (m : M A) (k : A -> M B) :
  result (bind m k) = result (k (result m)).
Proof.
  unfold result, bind. destruct m as [a t]; simpl. destruct (k a); reflexivity.
Qed.

Lemma calls_bind {A B} (m : M A) (k : A -> M B) :
  calls (bind m k) = calls m ++ calls (k (result m)).
Proof.
  unfold calls, result, bind. destruct m as [a t]; simpl.
  destruct (k a); reflexivity.
Qed.

Lemma result_for_each {A S} (body : A -> S -> M S) (f : A -> S -> S) :
  (forall a s, result (body a s) = f a s) ->
  forall l s, result (for_each l body s) = fold_left (fun s a => f a s) l s.
Proof.
  intros Hbody. induction l as [|a l IH]; intros s; simpl; [reflexivity|].
  rewrite result_bind, IH, Hbody. reflexivity.
Qed.

Lemma calls_for_each {A S} (body : A -> S -> M S) (t : list call) :
  (forall a s, calls (body a s) = t) ->
  forall l s, calls (for_each l body s) = flat_map (fun _ => t) l.
Proof.
  intros Hbody. induction l as [|a l IH]; intros s; simpl; [reflexivity|].
  rewrite calls_bind, IH, Hbody. reflexivity.
Qed.

Lemma for_each_run {A S} (body : A -> S -> M S) (f : A -> S -> S) (t : list call) :
  (forall a s, body a s = (f a s, t)) ->
  forall l s, for_each l body s =
              (fold_left (fun s a => f a s) l s, flat_map (fun _ => t) l).
Proof.
  intros Hbody l s. apply injective_projections.
  - apply result_for_each. intros a s'. rewrite Hbody. reflexivity.
  - apply calls_for_each. intros a s'. rewrite Hbody. reflexivity.
Qed.

(** ** Dictionaries built by a loop *)

Lemma memb_true (c : R) (ks : list R) : In c ks -> memb c ks = true.
Proof.
  intros H. unfold memb. destruct (in_dec Req_dec_T c ks); [reflexivity | contradiction].
Qed.

Lemma memb_false (c : R) (ks : list R) : ~ In c ks -> memb c ks = false.
Proof.
  intros H. unfold memb. destruct (in_dec Req_dec_T c ks); [contradiction | reflexivity].
Qed.

Lemma differs_same (c : R) : differs c c = false.
Proof. unfold differs. destruct (Req_dec_T c c); [reflexivity | congruence]. Qed.

Lemma differs_other (c c' : R) : c' <> c -> differs c c' = true.
Proof. intros H. unfold differs. destruct (Req_dec_T c' c); [contradiction | reflexivity]. Qed.

Lemma dict_get_set_same {V} (k : R) (v : V) (d : dict V) :
  dict_get k (dict_set k v d) = Some v.
Proof.
  induction d as [|[k' v'] d IH]; simpl.
  - destruct (Req_dec_T k k); [reflexivity | congruence].
  - destruct (Req_dec_T k k') as [E|N]; simpl.
    + destruct (Req_dec_T k k'); [reflexivity | contradiction].
    + destruct (Req_dec_T k k'); [contradiction | exact IH].
Qed.

Lemma dict_get_set_other {V} (k k' : R) (v : V) (d : dict V) :
  k <> k' -> dict_get k (dict_set k' v d) = dict_get k d.
Proof.
  intros Hk. induction d as [|[k0 v0] d IH]; simpl.
  - destruct (Req_dec_T k k'); [contradiction | reflexivity].
  - destruct (Req_dec_T k' k0) as [E|N]; simpl.
    + destruct (Req_dec_T k k0); [congruence | reflexivity].
    + destruct (Req_dec_T k k0); [reflexivity | exact IH].
Qed.

Lemma dict_get_assign_absent {V} (f : R -> V) (c : R) (l : list R) :
  ~ In c l -> forall d, dict_get c (assign_all f l d) = dict_get c d.
Proof.
  induction l as [|a l IH]; intros Hc d; simpl; [reflexivity|].
  rewrite IH by (intros H; apply Hc; right; exact H).
  apply dict_get_set_other. intros E; apply Hc; left; symmetry; exact E.
Qed.

Lemma dict_get_assign_present {V} (f : R -> V) (c : R) (l : list R) :
  In c l -> forall d, dict_get c (assign_all f l d) = Some (f c).
Proof.
  induction l as [|a l IH]; intros Hc d; simpl; [contradiction|].
  destruct (in_dec Req_dec_T c l) as [Hin|Hout].
  - apply IH, Hin.
  - destruct Hc as [E|Hin]; [subst a | contradiction].
    rewrite dict_get_assign_absent by exact Hout.
    apply dict_get_set_same.
Qed.

Lemma dict_keys_set {V} (k : R) (v : V) (d : dict V) :
  dict_keys (dict_set k v d) =
  if memb k (dict_keys d) then dict_keys d else dict_keys d ++ [k].
Proof.
  induction d as [|[k' v'] d IH].
  - rewrite memb_false by (intros []). reflexivity.
  - cbn [dict_set]. destruct (Req_dec_T k k') as [E|N].
    + rewrite memb_true by (left; symmetry; exact E). reflexivity.
    + change (dict_keys ((k', v') :: dict_set k v d))
        with (k' :: dict_keys (dict_set k v d)).
      change (dict_keys ((k', v') :: d)) with (k' :: dict_keys d).
      rewrite IH.
      destruct (in_dec Req_dec_T k (dict_keys d)) as [Hin|Hout].
      * rewrite (memb_true k (dict_keys d)) by exact Hin.
        rewrite memb_true by (right; exact Hin). reflexivity.
      * rewrite (memb_false k (dict_keys d)) by exact Hout.
        rewrite memb_false; [reflexivity|].
        intros [E|Hin]; [symmetry in E|]; contradiction.
Qed.

Lemma filter_differs_absent (c : R) (l : list R) :
  ~ In c l -> filter (differs c) l = l.
Proof.
  induction l as [|a l IH]; intros Hc; simpl; [reflexivity|].
  rewrite differs_other by (intros E; apply Hc; left; exact E).
  f_equal. apply IH. intros H; apply Hc; right; exact H.
Qed.

Lemma filter_fresh_known (ks : list R) (c : R) (l : list R) :
  In c ks ->
  filter (fun x => negb (memb x ks)) (filter (differs c) l) =
  filter (fun x => negb (memb x ks)) l.
Proof.
  intros Hc. induction l as [|a l IH]; simpl; [reflexivity|].
  destruct (Req_dec_T a c) as [E|N].
  - subst a. rewrite differs_same, memb_true by exact Hc. exact IH.
  - rewrite differs_other by exact N. simpl. rewrite IH. reflexivity.
Qed.

Lemma filter_fresh_added (ks : list R) (c : R) (l : list R) :
  filter (fun x => negb (memb x (ks ++ [c]))) l =
  filter (fun x => negb (memb x ks)) (filter (differs c) l).
Proof.
  induction l as [|a l IH]; simpl; [reflexivity|].
  destruct (Req_dec_T a c) as [E|N].
  - subst a. rewrite differs_same.
    rewrite memb_true by (apply in_or_app; right; left; reflexivity).
    exact IH.
  - rewrite differs_other by exact N. simpl. rewrite IH.
    destruct (in_dec Req_dec_T a ks) as [Hin|Hout].
    + rewrite (memb_true a ks) by exact Hin.
      rewrite memb_true by (apply in_or_app; left; exact Hin). reflexivity.
    + rewrite (memb_false a ks) by exact Hout.
      rewrite memb_false; [reflexivity|].
      intros H. apply in_app_or in H. destruct H as [H|[E|[]]];
        [contradiction | symmetry in E; contradiction].
Qed.

Lemma dict_keys_assign_all {V} (f : R -> V) (l : list R) :
  forall d, dict_keys (assign_all f l d) =
            dict_keys d ++
            filter (fun x => negb (memb x (dict_keys d))) (first_occurrences l).
Proof.
  induction l as [|c l IH]; intros d.
  - simpl. rewrite app_nil_r. reflexivity.
  - cbn [assign_all fold_left first_occurrences filter].
    change (fold_left (fun d c => dict_set c (f c) d) l (dict_set c (f c) d))
      with (assign_all f l (dict_set c (f c) d)).
    rewrite IH, dict_keys_set.
    destruct (in_dec Req_dec_T c (dict_keys d)) as [Hin|Hout].
    + rewrite (memb_true c) by exact Hin. cbn [negb].
      rewrite filter_fresh_known by exact Hin. reflexivity.
    + rewrite (memb_false c) by exact Hout. cbn [negb].
      rewrite <- app_assoc. cbn [app]. rewrite filter_fresh_added. reflexivity.
Qed.

Lemma first_occurrences_incl (l : list R) (c : R) :
  In c (first_occurrences l) -> In c l.
Proof.
  induction l as [|a l IH]; simpl; [tauto|].
  intros [E|Hin]; [left; exact E|].
  right. apply IH. apply filter_In in Hin. tauto.
Qed.

Lemma first_occurrences_complete (l : list R) (c : R) :
  In c l -> In c (first_occurrences l).
Proof.
  induction l as [|a l IH]; simpl; [tauto|].
  intros [E|Hin]; [left; exact E|].
  destruct (Req_dec_T c a) as [E|N]; [left; symmetry; exact E|].
  right. apply filter_In. split; [apply IH, Hin | apply differs_other, N].
Qed.

Lemma first_occurrences_NoDup (l : list R) :
  NoDup l -> first_occurrences l = l.
Proof.
  induction 1 as [|c l Hc Hl IH]; simpl; [reflexivity|].
  f_equal. rewrite IH. apply filter_differs_absent, Hc.
Qed.

(** ** What the two calculators compute *)

Section CalculatorFacts.

Variable ppf : R -> value.

Lemma z_calculator_small (data levels : list R) :
  (length data <= 1)%nat ->
  calculate_confidence_intervals ppf data levels =
  ((np_mean data, []), [Call_mean; Call_std 1]).
Proof.
  intros Hn. unfold calculate_confidence_intervals.
  apply Nat.leb_le in Hn. rewrite Hn. reflexivity.
Qed.

Lemma z_loop_body (data : list R) (c : R) (d : dict interval) :
  (2 <= length data)%nat ->
  (z_value <- stats_norm_ppf ppf ((1 + c) / 2) ;;
   sqrt_n <- np.sqrt (Num (INR (length data))) ;;
   let margin_of_error := (z_value * (np_std data 1 / sqrt_n))%V in
   ret (dict_set c
          ((np_mean data - margin_of_error)%V, (np_mean data + margin_of_error)%V)
          d)) =
  (dict_set c (z_interval ppf data c) d, [Call_ppf; Call_sqrt]).
Proof.
  intros Hn. unfold stats_norm_ppf, np.sqrt, logged, bind, ret.
  rewrite vsqrt_num by (apply pos_INR).
  rewrite np_std_sample by exact Hn.
  rewrite np_mean_average by lia.
  rewrite vdiv_num
    by (pose proof (sqrt_length_pos data ltac:(lia)); lra).
  reflexivity.
Qed.

Lemma z_calculator_large (data levels : list R) :
  (2 <= length data)%nat ->
  calculate_confidence_intervals ppf data levels =
  ((Num (average data), assign_all (z_interval ppf data) levels []),
   Call_mean :: Call_std 1 :: flat_map (fun _ => [Call_ppf; Call_sqrt]) levels).
Proof.
  intros Hn. unfold calculate_confidence_intervals.
  assert (Hleb : (length data <=? 1)%nat = false) by (apply Nat.leb_gt; lia).
  rewrite Hleb.
  unfold np.mean, np.std, logged.
  cbn [bind].
  set (body := fun confidence confidence_intervals => _).
  assert (Hbody : forall c d,
             body c d = (dict_set c (z_interval ppf data c) d, [Call_ppf; Call_sqrt])).
  { intros c d. subst body. cbv beta. apply z_loop_body, Hn. }
  rewrite (for_each_run body (fun c d => dict_set c (z_interval ppf data c) d)
             [Call_ppf; Call_sqrt] Hbody).
  cbn [bind ret]. rewrite app_nil_r.
  rewrite np_mean_average by lia. reflexivity.
Qed.

End CalculatorFacts.

Lemma se_calculator_small (data : list R) (k : R) :
  (length data <= 1)%nat ->
  calculate_confidence_interval_se data k = (None, [Call_mean; Call_std 1]).
Proof.
  intros Hn. unfold calculate_confidence_interval_se.
  apply Nat.leb_le in Hn. rewrite Hn. reflexivity.
Qed.

Lemma se_calculator_large (data : list R) (k : R) :
  (2 <= length data)%nat ->
  calculate_confidence_interval_se data k =
  (Some (around (average data) (Num (k * standard_error_of data))),
   [Call_mean; Call_std 1; Call_sqrt]).
Proof.
  intros Hn. unfold calculate_confidence_interval_se.
  assert (Hleb : (length data <=? 1)%nat = false) by (apply Nat.leb_gt; lia).
  rewrite Hleb.
  unfold np.mean, np.std, np.sqrt, logged, bind, ret.
  rewrite vsqrt_num by (apply pos_INR).
  rewrite np_std_sample by exact Hn.
  rewrite np_mean_average by lia.
  rewrite vdiv_num
    by (pose proof (sqrt_length_pos data ltac:(lia)); lra).
  reflexivity.
Qed.

(** ** The items of a dictionary built by a loop *)

Lemma dict_set_items {V} (f : R -> V) (k : R) (d : dict V) :
  Forall (fun kv => snd kv = f (fst kv)) d ->
  Forall (fun kv => snd kv = f (fst kv)) (dict_set k (f k) d).
Proof.
  induction 1 as [|[k' v'] d Hkv Hd IH]; simpl.
  - constructor; [reflexivity | constructor].
  - destruct (Req_dec_T k k') as [E|N]; constructor; simpl; auto.
    subst k'. reflexivity.
Qed.

Lemma assign_all_items {V} (f : R -> V) (l : list R) :
  forall d, Forall (fun kv => snd kv = f (fst kv)) d ->
            Forall (fun kv => snd kv = f (fst kv)) (assign_all f l d).
Proof.
  induction l as [|c l IH]; intros d Hd; simpl; [exact Hd|].
  apply IH, dict_set_items, Hd.
Qed.

Lemma items_of_keys {V} (f : R -> V) (d : dict V) :
  Forall (fun kv => snd kv = f (fst kv)) d ->
  d = map (fun c => (c, f c)) (dict_keys d).
Proof.
  induction 1 as [|[k v] d Hkv Hd IH]; simpl; [reflexivity|].
  simpl in Hkv. subst v. f_equal. exact IH.
Qed.

Lemma assign_all_from_empty {V} (f : R -> V) (l : list R) :
  assign_all f l [] = map (fun c => (c, f c)) (first_occurrences l).
Proof.
  rewrite (items_of_keys f (assign_all f l []))
    by (apply assign_all_items; constructor).
  rewrite dict_keys_assign_all. cbn [dict_keys map app].
  f_equal. apply forallb_filter_id, forallb_forall.
  intros x _. rewrite memb_false by (intros []). reflexivity.
Qed.

Lemma first_occurrences_distinct (l : list R) : NoDup (first_occurrences l).
Proof.
  induction l as [|c l IH]; simpl; constructor.
  - intros Hin. apply filter_In in Hin. destruct Hin as [_ Hd].
    rewrite differs_same in Hd. discriminate.
  - apply NoDup_filter, IH.
Qed.

(** ** Half-widths *)
Lemma half_width_around (m e : R) : half_width (around m (Num e)) = Num e.
Proof.
  unfold half_width, around. simpl.
  destruct (Req_dec_T 2 0) as [E|_]; [lra|]. f_equal. field.
Qed.

Lemma standard_error_nonneg (data : list R) : 0 <= standard_error_of data.
Proof.
  unfold standard_error_of, sample_stddev.
  apply Rmult_le_pos; [apply sqrt_pos|].
  destruct (Req_dec_T (sqrt (INR (length data))) 0) as [E|N].
  - rewrite E, Rinv_0. lra.
  - left. apply Rinv_0_lt_compat.
    pose proof (sqrt_pos (INR (length data))). lra.
Qed.

Lemma standard_error_pos (data : list R) :
  (1 <= length data)%nat ->
  (0 < standard_error_of data <-> 0 < sample_stddev data).
Proof.
  intros Hn. pose proof (sqrt_length_pos data Hn) as Hq.
  unfold standard_error_of. split; intros H.
  - apply Rmult_lt_reg_r with (/ sqrt (INR (length data))).
    + apply Rinv_0_lt_compat, Hq.
    + rewrite Rmult_0_l. exact H.
  - apply Rmult_lt_0_compat; [exact H | apply Rinv_0_lt_compat, Hq].
Qed.

Lemma se_margin_large (data : list R) (k : R) :
  (2 <= length data)%nat ->
  se_margin data k = Some (Num (k * standard_error_of data)).
Proof.
  intros Hn. unfold se_margin. rewrite se_calculator_large by exact Hn.
  simpl. rewrite half_width_around. reflexivity.
Qed.

Lemma z_margin_large (ppf : R -> value) (data : list R) (c z : R) :
  (2 <= length data)%nat -> z_of ppf c = Num z ->
  z_margin ppf data c = Some (Num (z * standard_error_of data)).
Proof.
  intros Hn Hz. unfold z_margin. rewrite z_calculator_large by exact Hn.
  unfold result. cbn [fst snd].
  rewrite dict_get_assign_present by (left; reflexivity).
  unfold z_interval. rewrite Hz. simpl. rewrite half_width_around. reflexivity.
Qed.

Lemma uniform_ppf_inside (p : R) : 0 < p -> p < 1 -> uniform_ppf p = Num (2 * p - 1).
Proof.
  intros H0 H1. unfold uniform_ppf.
  destruct (Rlt_dec 0 p); [|contradiction].
  destruct (Rlt_dec p 1); [reflexivity | contradiction].
Qed.

Lemma uniform_ppf_quantile_like : quantile_like uniform_ppf.
Proof.
  exists (fun p => 2 * p - 1). split; [|split].
  - apply uniform_ppf_inside.
  - lra.
  - intros p p' _ Hlt _. lra.
Qed.

(** C3, as the specification states it, fails: a level that occurs
    twice in the supplied sequence gets one entry, not two, and on a
    sample of one observation no level gets an entry. *)
Lemma one_entry_per_element_fails :
  ~ (exists ppf : R -> value,
       dict_keys (snd (result (calculate_confidence_intervals ppf [1; 3]
                                 [9 / 10; 9 / 10]))) = [9 / 10; 9 / 10]) /\
  ~ (exists ppf : R -> value,
       dict_keys (snd (result (calculate_confidence_intervals ppf [5]
                                 [9 / 10]))) = [9 / 10]).
Proof.
  split; intros [ppf H].
  - rewrite z_calculator_large in H by (simpl; lia).
    unfold result in H. cbn [fst snd] in H.
    rewrite assign_all_from_empty in H. simpl in H.
    rewrite differs_same in H. discriminate H.
  - rewrite z_calculator_small in H by (simpl; lia). discriminate H.
Qed.

(** C3, amended.  On a sample with at least two observations the
    output of [calculate_confidence_intervals] holds one entry per
    distinct level, in the order in which the levels first occur in
    the supplied sequence, each level paired with its interval; a level
    that occurs again adds no entry.  In particular a sequence without
    repetitions is reproduced entry by entry. *)
Theorem one_entry_per_distinct_level
    (ppf : R -> value) (data levels : list R) :
  (2 <= length data)%nat ->
  let d := snd (result (calculate_confidence_intervals ppf data levels)) in
  d = map (fun c => (c, z_interval ppf data c)) (first_occurrences levels) /\
  dict_keys d = first_occurrences levels /\
  NoDup (dict_keys d) /\
  (forall c, In c levels <-> In c (dict_keys d)) /\
  (NoDup levels -> dict_keys d = levels).
Proof.
  intros Hn. cbv zeta.
  rewrite z_calculator_large by exact Hn. unfold result. cbn [fst snd].
  rewrite assign_all_from_empty.
  assert (Hkeys : dict_keys (map (fun c => (c, z_interval ppf data c))
                               (first_occurrences levels)) =
                  first_occurrences levels).
  { unfold dict_keys. rewrite map_map. simpl. apply map_id. }
  rewrite Hkeys. split; [reflexivity|]. split; [reflexivity|].
  split; [apply first_occurrences_distinct|]. split.
  - intros c. split; [apply first_occurrences_complete | apply first_occurrences_incl].
  - apply first_occurrences_NoDup.
Qed.

Lemma one_entry_per_distinct_level_witness :
  let d := snd (result (calculate_confidence_intervals uniform_ppf [1; 3]
                          [1 / 2; 1 / 4; 1 / 2])) in
  d = map (fun c => (c, z_interval uniform_ppf [1; 3] c))
        (first_occurrences [1 / 2; 1 / 4; 1 / 2]) /\
  dict_keys d = first_occurrences [1 / 2; 1 / 4; 1 / 2] /\
  NoDup (dict_keys d) /\
  (forall c, In c [1 / 2; 1 / 4; 1 / 2] <-> In c (dict_keys d)) /\
  (NoDup [1 / 2; 1 / 4; 1 / 2] -> dict_keys d = [1 / 2; 1 / 4; 1 / 2]).
Proof.
  apply (one_entry_per_distinct_level uniform_ppf [1; 3] [1 / 2; 1 / 4; 1 / 2]).
  simpl; lia.
Defined.

(** C4, as the specification states it, fails: the reason that
    [validate_data] gives for a short sample is not the text
    "insufficient data". *)
Lemma validate_data_reason_differs :
  result (validate_data []) <> (false, Some "insufficient data"%string) /\
  result (validate_data [5]) <> (false, Some "insufficient data"%string).
Proof.
  split; unfold validate_data, result, not_enough_data; simpl; intros H;
    discriminate H.
Qed.

(** C4, amended.  [validate_data] answers [(False, "Not enough data
    points for analysis.")] exactly when the sample has fewer than two
    observations and [(True, None)] otherwise; it calls nothing. *)
Theorem validate_data_spec (data : list R) :
  ((length data < 2)%nat <->
   result (validate_data data) =
   (false, Some "Not enough data points for analysis."%string)) /\
  ((2 <= length data)%nat <-> result (validate_data data) = (true, None)) /\
  calls (validate_data data) = [].
Proof.
  unfold validate_data, not_enough_data.
  destruct (Nat.ltb_spec (length data) 2) as [Hlt|Hge]; simpl.
  - repeat split; try (intros; lia); try reflexivity.
    intros H; discriminate H.
  - repeat split; try (intros; lia); try reflexivity.
    intros H; discriminate H.
Qed.

(** C5.  On a sample with at most one observation
    [calculate_confidence_intervals] returns the mean (the observation
    itself, or [nan] for the empty sample) with an empty mapping, and
    [calculate_confidence_interval_se] returns [None]; both return
    normally, where [validate_data] reports the failure. *)
Theorem short_sample_degrades
    (ppf : R -> value) (data levels : list R) (k : R) :
  (length data <= 1)%nat ->
  result (calculate_confidence_intervals ppf data levels) = (np_mean data, []) /\
  result (calculate_confidence_interval_se data k) = None /\
  (data = [] /\ np_mean data = NaN \/
   exists x, data = [x] /\ np_mean data = Num x) /\
  result (validate_data data) = (false, Some not_enough_data).
Proof.
  intros Hn.
  rewrite z_calculator_small, se_calculator_small by exact Hn.
  split; [reflexivity|]. split; [reflexivity|]. split.
  - destruct data as [|x [|y data]]; simpl in Hn; [| |lia].
    + left. split; [reflexivity | apply np_mean_empty].
    + right. exists x. split; [reflexivity|].
      rewrite np_mean_average by (simpl; lia).
      f_equal. unfold average. simpl. field.
  - unfold validate_data.
    destruct (Nat.ltb_spec (length data) 2) as [_|Hge]; [reflexivity | lia].
Qed.

Lemma short_sample_degrades_witness :
  result (calculate_confidence_intervals uniform_ppf [5] [9 / 10]) =
    (np_mean [5], []) /\
  result (calculate_confidence_interval_se [5] 2) = None /\
  ([5] = [] /\ np_mean [5] = NaN \/ exists x, [5] = [x] /\ np_mean [5] = Num x) /\
  result (validate_data [5]) = (false, Some not_enough_data).
Proof.
  apply (short_sample_degrades uniform_ppf [5] [9 / 10] 2).
  simpl; lia.
Defined.

(** C6, as the specification states it, fails: the mean of a sample of
    one observation is defined, and on such a sample both calculators
    do evaluate [np.mean] and [np.std] before they test the size. *)
Lemma moments_computed_before_guard :
  np_mean [5] = Num 5 /\
  calls (calculate_confidence_interval_se [5] 2) = [Call_mean; Call_std 1] /\
  ~ (exists ppf : R -> value,
       calls (calculate_confidence_intervals ppf [5] [9 / 10]) = []).
Proof.
  split; [|split].
  - rewrite np_mean_average by (simpl; lia).
    f_equal. unfold average. simpl. field.
  - rewrite se_calculator_small by (simpl; lia). reflexivity.
  - intros [ppf H]. rewrite z_calculator_small in H by (simpl; lia).
    discriminate H.
Qed.

(** C6, amended.  On a sample with fewer than two observations the
    deviation is undefined ([nan]) and the mean is undefined only for
    the empty sample; each calculator yields no interval there (an
    empty mapping, [None]) and evaluates neither the quantile function
    nor the square root of [n], after having called [np.mean] and
    [np.std], once each; [calculate_confidence_intervals] returns the
    mean that it computed. *)
Theorem short_sample_guard
    (ppf : R -> value) (data levels : list R) (k : R) :
  (length data < 2)%nat ->
  np_std data 1 = NaN /\
  (np_mean data = NaN <-> data = []) /\
  snd (result (calculate_confidence_intervals ppf data levels)) = [] /\
  result (calculate_confidence_interval_se data k) = None /\
  calls (calculate_confidence_intervals ppf data levels) =
    [Call_mean; Call_std 1] /\
  calls (calculate_confidence_interval_se data k) = [Call_mean; Call_std 1] /\
  fst (result (calculate_confidence_intervals ppf data levels)) = np_mean data.
Proof.
  intros Hn.
  rewrite z_calculator_small, se_calculator_small by lia.
  split; [apply np_std_undefined; lia|].
  split; [|repeat split].
  destruct data as [|x data].
  - split; [reflexivity | intros _; apply np_mean_empty].
  - rewrite np_mean_average by (simpl; lia).
    split; intros H; discriminate H.
Qed.

Lemma short_sample_guard_witness :
  np_std [5] 1 = NaN /\
  (np_mean [5] = NaN <-> [5] = []) /\
  snd (result (calculate_confidence_intervals uniform_ppf [5] [9 / 10])) = [] /\
  result (calculate_confidence_interval_se [5] 2) = None /\
  calls (calculate_confidence_intervals uniform_ppf [5] [9 / 10]) =
    [Call_mean; Call_std 1] /\
  calls (calculate_confidence_interval_se [5] 2) = [Call_mean; Call_std 1] /\
  fst (result (calculate_confidence_intervals uniform_ppf [5] [9 / 10])) =
    np_mean [5].
Proof.
  apply (short_sample_guard uniform_ppf [5] [9 / 10] 2).
  simpl; lia.
Defined.





(** C10.  On a sample with at least two observations, the
    standard-error calculator called with the critical value [k] of a
    level [c] as its multiplier returns exactly the interval that the z
    calculator associates with [c].  (The critical value of a level in
    the open unit interval is a number.) *)
Theorem calculators_agree
    (ppf : R -> value) (data levels : list R) (c k : R) :
  (2 <= length data)%nat ->
  In c levels ->
  ppf ((1 + c) / 2) = Num k ->
  exists iv : interval,
    dict_get c (snd (result (calculate_confidence_intervals ppf data levels))) =
      Some iv /\
    result (calculate_confidence_interval_se data k) = Some iv.
Proof.
  intros Hn Hc Hk.
  rewrite z_calculator_large, se_calculator_large by exact Hn.
  unfold result. cbn [fst snd].
  rewrite dict_get_assign_present by exact Hc.
  exists (z_interval ppf data c). split; [reflexivity|].
  unfold z_interval, z_of. rewrite Hk. reflexivity.
Qed.

Lemma calculators_agree_witness :
  exists iv : interval,
    dict_get (1 / 2)
      (snd (result (calculate_confidence_intervals uniform_ppf [1; 3]
                      [9 / 10; 1 / 2]))) = Some iv /\
    result (calculate_confidence_interval_se [1; 3] (1 / 2)) = Some iv.
Proof.
  apply (calculators_agree uniform_ppf [1; 3] [9 / 10; 1 / 2] (1 / 2) (1 / 2)).
  - simpl; lia.
  - simpl; auto.
  - rewrite uniform_ppf_inside by lra. f_equal. lra.
Defined.

(** ** The scenarios of the specification *)

Example scenario_moments :
  average [10; 12; 14; 16; 18] = 14 /\ sample_stddev [10; 12; 14; 16; 18] = sqrt 10.
Proof.
  assert (Ha : average [10; 12; 14; 16; 18] = 14)
    by (unfold average; simpl; field).
  split; [exact Ha|].
  unfold sample_stddev, sum_sq_dev. rewrite Ha. f_equal. simpl. field.
Qed.

Example scenario_zero_multiplier :
  result (calculate_confidence_interval_se [1; 2; 3; 4; 5] 0) = Some (Num 3, Num 3).
Proof.
  rewrite se_calculator_large by (simpl; lia). unfold result, around. simpl.
  assert (Ha : average [1; 2; 3; 4; 5] = 3) by (unfold average; simpl; field).
  rewrite Ha. do 2 f_equal; f_equal; ring.
Qed.

Example scenario_order (ppf : R -> value) :
  dict_keys (snd (result (calculate_confidence_intervals ppf [1; 3]
                            [99 / 100; 90 / 100; 95 / 100]))) =
  [99 / 100; 90 / 100; 95 / 100].
Proof.
  rewrite z_calculator_large by (simpl; lia). unfold result. cbn [fst snd].
  rewrite assign_all_from_empty. unfold dict_keys. rewrite map_map, map_id.
  cbn [first_occurrences filter].
  repeat (rewrite differs_other by lra; cbn [filter]). reflexivity.
Qed.

Example scenario_repeated_level (ppf : R -> value) :
  dict_keys (snd (result (calculate_confidence_intervals ppf [1; 3]
                            [1 / 2; 1 / 4; 1 / 2]))) = [1 / 2; 1 / 4].
Proof.
  rewrite z_calculator_large by (simpl; lia). unfold result. cbn [fst snd].
  rewrite assign_all_from_empty. unfold dict_keys. rewrite map_map, map_id.
  cbn [first_occurrences filter].
  repeat (first [rewrite differs_same | rewrite differs_other by lra];
          cbn [filter]).
  reflexivity.
Qed.

Lemma margin_of_error_finite (data : list R) (z : R) :
  (2 <= length data)%nat ->
  margin_of_error data (Num z) = Num (z * standard_error_of data).
Proof.
  intros Hn. unfold margin_of_error, standard_error_of.
  rewrite np_std_sample by exact Hn.
  rewrite vsqrt_num by apply pos_INR.
  rewrite vdiv_num by (pose proof (sqrt_length_pos data ltac:(lia)); lra).
  reflexivity.
Qed.


Lemma se_result_as_computed (data : list R) (k : R) :
  (2 <= length data)%nat ->
  result (calculate_confidence_interval_se data k) =
  Some (interval_for data (Num k)).
Proof.
  intros Hn. rewrite se_calculator_large by exact Hn.
  unfold interval_for, margin_of_error, around.
  rewrite np_mean_average, np_std_sample by lia.
  rewrite vsqrt_num by apply pos_INR.
  rewrite vdiv_num by (pose proof (sqrt_length_pos data ltac:(lia)); lra).
  reflexivity.
Qed.




(** ** Further properties of the calculators *)

Lemma validate_data_ok (data : list R) :
  fst (result (validate_data data)) = true <-> (2 <= length data)%nat.
Proof.
  unfold validate_data.
  destruct (Nat.ltb_spec (length data) 2) as [Hlt|Hge]; simpl.
  - split; [intros H; discriminate H | lia].
  - split; [intros _; exact Hge | reflexivity].
Qed.

(** The validator and the guards of the two calculators draw the same
    line: a sample passes [validate_data] exactly when it has two
    observations or more, exactly when
    [calculate_confidence_interval_se] returns an interval, and exactly
    when [calculate_confidence_intervals] returns a non-empty mapping
    for a non-empty sequence of levels. *)
Theorem validation_matches_guards
    (ppf : R -> value) (data levels : list R) (c k : R) :
  (fst (result (validate_data data)) = true <-> (2 <= length data)%nat) /\
  (fst (result (validate_data data)) = true <->
   result (calculate_confidence_interval_se data k) <> None) /\
  (fst (result (validate_data data)) = true <->
   snd (result (calculate_confidence_intervals ppf data (c :: levels))) <> []).
Proof.
  split; [apply validate_data_ok|].
  rewrite validate_data_ok.
  destruct (le_lt_dec (length data) 1) as [Hsmall|Hlarge].
  - rewrite z_calculator_small, se_calculator_small by exact Hsmall.
    unfold result. cbn [fst snd].
    split; (split; [intros H; lia | intros H; contradiction H; reflexivity]).
  - rewrite z_calculator_large, se_calculator_large by lia.
    unfold result. cbn [fst snd]. rewrite assign_all_from_empty.
    split; (split; [intros _ H; discriminate H | intros _; lia]).
Qed.

(** [calculate_confidence_interval_se] neither rejects nor reorders
    its result for any multiplier: on a sample with at least two
    observations it returns [(mean - margin, mean + margin)] for the
    margin of that multiplier, negative or not.  Where the mean and
    the two ends are finite numbers, the pair encloses the mean when the
    multiplier is not negative, and is the other way round (upper end
    not above the mean, lower end not below it) when the multiplier is
    not positive. *)
Theorem se_interval_orientation (data : list R) (k l m u : R) :
  (2 <= length data)%nat ->
  np_mean data = Num m ->
  interval_for data (Num k) = (Num l, Num u) ->
  result (calculate_confidence_interval_se data k) = Some (Num l, Num u) /\
  (0 <= k -> l <= m <= u) /\
  (k <= 0 -> u <= m <= l).
Proof.
  intros Hn Hm Hiv.
  rewrite se_result_as_computed by exact Hn. rewrite Hiv.
  split; [reflexivity|].
  unfold interval_for in Hiv. rewrite margin_of_error_finite in Hiv by exact Hn.
  rewrite Hm in Hiv. simpl in Hiv. injection Hiv as <- <-.
  pose proof (standard_error_nonneg data) as Hse.
  split; intros Hk; split; nra.
Qed.

Lemma se_interval_orientation_witness :
  result (calculate_confidence_interval_se [1; 3] (-2)) =
    Some (Num (average [1; 3] - -2 * standard_error_of [1; 3]),
          Num (average [1; 3] + -2 * standard_error_of [1; 3])) /\
  (0 <= -2 ->
   average [1; 3] - -2 * standard_error_of [1; 3] <= average [1; 3] <=
   average [1; 3] + -2 * standard_error_of [1; 3]) /\
  (-2 <= 0 ->
   average [1; 3] + -2 * standard_error_of [1; 3] <= average [1; 3] <=
   average [1; 3] - -2 * standard_error_of [1; 3]).
Proof.
  apply (se_interval_orientation [1; 3] (-2)).
  - simpl; lia.
  - apply np_mean_average. simpl; lia.
  - unfold interval_for.
    rewrite margin_of_error_finite, np_mean_average by (simpl; lia).
    reflexivity.
Defined.

(** On a sample with at least two observations the intervals of two
    levels of the open unit interval are nested wherever their ends
    and the mean are finite numbers: the interval of the smaller level
    lies inside the interval of the larger one, and both contain the
    mean. *)
Theorem z_intervals_nested
    (ppf : R -> value) (data levels : list R) (c1 c2 m l1 u1 l2 u2 : R) :
  quantile_like ppf ->
  (2 <= length data)%nat ->
  0 < c1 -> c1 < c2 -> c2 < 1 ->
  In c1 levels -> In c2 levels ->
  let r := result (calculate_confidence_intervals ppf data levels) in
  fst r = Num m ->
  dict_get c1 (snd r) = Some (Num l1, Num u1) ->
  dict_get c2 (snd r) = Some (Num l2, Num u2) ->
  l2 <= l1 /\ l1 <= m /\ m <= u1 /\ u1 <= u2.
Proof.
  intros (q & Hfin & Hhalf & Hinc) Hn Hc1 Hc12 Hc2 Hin1 Hin2. cbv zeta.
  rewrite z_calculator_large by exact Hn. cbn [result fst snd].
  rewrite !dict_get_assign_present by assumption.
  unfold z_interval, z_of.
  rewrite (Hfin ((1 + c1) / 2)), (Hfin ((1 + c2) / 2)) by lra.
  assert (Hq12 : q ((1 + c1) / 2) < q ((1 + c2) / 2)) by (apply Hinc; lra).
  assert (Hq1 : 0 < q ((1 + c1) / 2)) by (rewrite <- Hhalf; apply Hinc; lra).
  pose proof (standard_error_nonneg data) as Hse.
  unfold around. simpl. intros Hm H1 H2.
  injection Hm as <-. injection H1 as <- <-. injection H2 as <- <-.
  repeat split; nra.
Qed.

Lemma z_intervals_nested_witness :
  let m := average [1; 3] in
  let se := standard_error_of [1; 3] in
  let z1 := 2 * ((1 + 1 / 2) / 2) - 1 in
  let z2 := 2 * ((1 + 9 / 10) / 2) - 1 in
  m - z2 * se <= m - z1 * se /\ m - z1 * se <= m /\ m <= m + z1 * se /\
  m + z1 * se <= m + z2 * se.
Proof.
  apply (z_intervals_nested uniform_ppf [1; 3] [9 / 10; 1 / 2]
           (1 / 2) (9 / 10)).
  - exact uniform_ppf_quantile_like.
  - simpl; lia.
  - lra.
  - lra.
  - lra.
  - simpl; auto.
  - simpl; auto.
  - rewrite z_calculator_large by (simpl; lia). reflexivity.
  - rewrite z_calculator_large by (simpl; lia). cbn [result fst snd].
    rewrite dict_get_assign_present by (simpl; auto).
    unfold z_interval, z_of, around. rewrite uniform_ppf_inside by lra.
    reflexivity.
  - rewrite z_calculator_large by (simpl; lia). cbn [result fst snd].
    rewrite dict_get_assign_present by (simpl; auto).
    unfold z_interval, z_of, around. rewrite uniform_ppf_inside by lra.
    reflexivity.
Defined.

(** What the calculators evaluate: the mean and the deviation (with
    [ddof = 1]) once each, before the size is tested; then, on a sample
    with two observations or more, [calculate_confidence_intervals]
    evaluates the quantile function and the square root of [n] once for
    every element of the supplied sequence, repeated levels included,
    and [calculate_confidence_interval_se] the square root once. *)
Theorem library_calls_made
    (ppf : R -> value) (data levels : list R) (k : R) :
  calls (calculate_confidence_intervals ppf data levels) =
    [Call_mean; Call_std 1] ++
    (if (length data <=? 1)%nat then []
     else flat_map (fun _ => [Call_ppf; Call_sqrt]) levels) /\
  calls (calculate_confidence_interval_se data k) =
    [Call_mean; Call_std 1] ++
    (if (length data <=? 1)%nat then [] else [Call_sqrt]) /\
  length (calls (calculate_confidence_intervals ppf data levels)) =
    if (length data <=? 1)%nat then 2%nat else (2 + 2 * length levels)%nat.
Proof.
  destruct (Nat.leb_spec (length data) 1) as [Hsmall|Hlarge].
  - rewrite z_calculator_small, se_calculator_small by exact Hsmall.
    repeat split.
  - rewrite z_calculator_large, se_calculator_large by lia.
    unfold calls. cbn [snd]. split; [reflexivity|]. split; [reflexivity|].
    cbn [length]. do 2 f_equal.
    induction levels as [|c l IH]; simpl; [reflexivity|]. rewrite IH. lia.
Qed.

(** The interval of a level does not depend on which other levels are
    supplied with it, nor on their order or number. *)
Theorem levels_are_independent
    (ppf : R -> value) (data levels levels' : list R) (c : R) :
  In c levels ->
  In c levels' ->
  dict_get c (snd (result (calculate_confidence_intervals ppf data levels))) =
  dict_get c (snd (result (calculate_confidence_intervals ppf data levels'))).
Proof.
  intros Hc Hc'.
  destruct (le_lt_dec (length data) 1) as [Hsmall|Hlarge].
  - rewrite !z_calculator_small by exact Hsmall. reflexivity.
  - rewrite !z_calculator_large by lia. unfold result. cbn [fst snd].
    rewrite !dict_get_assign_present by assumption. reflexivity.
Qed.

Lemma levels_are_independent_witness :
  dict_get (1 / 2)
    (snd (result (calculate_confidence_intervals uniform_ppf [1; 3]
                    [1 / 2]))) =
  dict_get (1 / 2)
    (snd (result (calculate_confidence_intervals uniform_ppf [1; 3]
                    [9 / 10; 1 / 2; 9 / 10]))).
Proof.
  apply (levels_are_independent uniform_ppf [1; 3] [1 / 2]
           [9 / 10; 1 / 2; 9 / 10] (1 / 2)).
  - simpl; auto.
  - simpl; auto.
Defined.

(** ** Reading the upload *)

Lemma string_append_assoc (a b c : string) :
  String.append (String.append a b) c = String.append a (String.append b c).
Proof.
  induction a as [|x a IH]; simpl; [reflexivity|]. rewrite IH. reflexivity.
Qed.

Lemma endswith_suffix (s suffix : string) :
  endswith s suffix = true <-> exists p, s = String.append p suffix.
Proof.
  split.
  - induction s as [|c s IH]; cbn [endswith].
    + destruct (String.eqb_spec EmptyString suffix) as [E|N];
        [|intros H; discriminate H].
      intros _. exists EmptyString. exact E.
    + destruct (String.eqb_spec (String c s) suffix) as [E|N].
      * intros _. exists EmptyString. exact E.
      * intros H. destruct (IH H) as [p Hp].
        exists (String c p). simpl. rewrite Hp. reflexivity.
  - intros [p Hp]. subst s. induction p as [|c p IH].
    + cbn [String.append]. destruct suffix as [|c s]; cbn [endswith];
        rewrite String.eqb_refl; reflexivity.
    + cbn [String.append endswith]. destruct (String.eqb_spec (String c (String.append p suffix)) suffix);
        [reflexivity | exact IH].
Qed.

Lemma endswith_shorter (p : string) (c1 c2 c3 c4 c5 d1 d2 d3 d4 : ascii) :
  Ascii.eqb c5 d4 = false ->
  endswith
    (String.append p
       (String c1 (String c2 (String c3 (String c4 (String c5 EmptyString))))))
    (String d1 (String d2 (String d3 (String d4 EmptyString)))) = false.
Proof.
  intros Hlast.
  destruct (endswith _ _) eqn:E; [|reflexivity].
  apply endswith_suffix in E. destruct E as [q Hq]. exfalso.
  assert (Hrev : forall a b : string,
             String.append a (String c5 EmptyString) =
             String.append b (String d4 EmptyString) -> c5 = d4).
  { induction a as [|x a IH]; intros [|y b] H; simpl in H.
    - injection H as H. exact H.
    - injection H as _ H. destruct b; discriminate H.
    - injection H as _ H. destruct a; discriminate H.
    - injection H as _ H. exact (IH b H). }
  apply (Ascii.eqb_neq c5 d4); [exact Hlast|].
  apply (Hrev (String.append p (String c1 (String c2 (String c3 (String c4 EmptyString)))))
              (String.append q (String d1 (String d2 (String d3 EmptyString))))).
  rewrite !string_append_assoc. exact Hq.
Qed.

(** [read_file] chooses the reader by the end of the file name alone:
    a name that ends in ".csv" goes to the CSV reader, a name that ends
    in ".xlsx" to the Excel reader, and what the reader returns or
    raises is passed on; the answer is [None], without any reader
    being asked, exactly when the name ends in neither. *)
Theorem read_file_by_suffix
    (DF : Type) (read_csv read_excel : UploadedFile -> outcome DF)
    (f : UploadedFile) :
  (forall p, name f = String.append p ".csv" ->
             read_file read_csv read_excel f = passed_on (read_csv f)) /\
  (forall p, name f = String.append p ".xlsx" ->
             read_file read_csv read_excel f = passed_on (read_excel f)) /\
  (read_file read_csv read_excel f = Returned None <->
   ~ (exists p, name f = String.append p ".csv") /\
   ~ (exists p, name f = String.append p ".xlsx")).
Proof.
  unfold read_file, passed_on. split; [|split].
  - intros p Hp.
    assert (H : endswith (name f) ".csv" = true)
      by (apply endswith_suffix; exists p; exact Hp).
    rewrite H. reflexivity.
  - intros p Hp.
    assert (H : endswith (name f) ".xlsx" = true)
      by (apply endswith_suffix; exists p; exact Hp).
    rewrite H, Hp.
    rewrite (endswith_shorter p "." "x" "l" "s" "x" "." "c" "s" "v")
      by reflexivity.
    reflexivity.
  - rewrite <- !endswith_suffix.
    destruct (endswith (name f) ".csv"), (endswith (name f) ".xlsx");
      try destruct (read_csv f); try destruct (read_excel f);
      split; try (intros H; discriminate H);
      try (intros [H1 H2]; try (contradiction H1; reflexivity);
           try (contradiction H2; reflexivity));
      try reflexivity;
      intros _; split; intros H; discriminate H.
Qed.

Example read_file_is_case_sensitive
    (DF : Type) (read_csv read_excel : UploadedFile -> outcome DF) (c : string) :
  read_file read_csv read_excel {| name := "DATA.CSV"; content := c |} =
  Returned None.
Proof. reflexivity. Qed.

(** ** Reading the confidence levels *)

Lemma split_commas_nonempty (s : string) : split_commas s <> [].
Proof.
  destruct s as [|c s]; simpl; [discriminate|].
  destruct (Ascii.eqb c ","); [discriminate|].
  destruct (split_commas s); discriminate.
Qed.

Lemma split_commas_append (s t : string) :
  split_commas (String.append s (String "," t)) =
  split_commas s ++ split_commas t.
Proof.
  induction s as [|c s IH]; [reflexivity|].
  cbn [String.append split_commas]. rewrite IH.
  destruct (Ascii.eqb c ","); [reflexivity|].
  pose proof (split_commas_nonempty s) as Hne.
  destruct (split_commas s) as [|w ws]; [contradiction Hne; reflexivity|].
  reflexivity.
Qed.

Lemma split_commas_length (s : string) :
  length (split_commas s) = S (count_commas s).
Proof.
  induction s as [|c s IH]; [reflexivity|].
  cbn [split_commas count_commas].
  destruct (Ascii.eqb c ","); simpl.
  - rewrite IH. reflexivity.
  - pose proof (split_commas_nonempty s) as Hne.
    destruct (split_commas s) as [|w ws]; [contradiction Hne; reflexivity|].
    simpl in *. exact IH.
Qed.

Lemma join_commas_cons (c : ascii) (w : string) (ws : list string) :
  join_commas (String c w :: ws) = String c (join_commas (w :: ws)).
Proof. destruct ws; reflexivity. Qed.

Lemma join_split_commas (s : string) : join_commas (split_commas s) = s.
Proof.
  induction s as [|c s IH]; [reflexivity|].
  cbn [split_commas].
  pose proof (split_commas_nonempty s) as Hne.
  destruct (Ascii.eqb_spec c ",") as [->|N].
  - destruct (split_commas s) as [|w ws]; [contradiction Hne; reflexivity|].
    cbn [join_commas String.append]. rewrite <- IH. reflexivity.
  - destruct (split_commas s) as [|w ws]; [contradiction Hne; reflexivity|].
    rewrite join_commas_cons, IH. reflexivity.
Qed.

Lemma floats_of_length (py_float : string -> option R) (pieces : list string) :
  forall levels, floats_of py_float pieces = Some levels ->
                 length levels = length pieces.
Proof.
  induction pieces as [|x pieces IH]; simpl; intros levels H.
  - injection H as <-. reflexivity.
  - destruct (py_float x); [|discriminate H].
    destruct (floats_of py_float pieces) as [vs|]; [|discriminate H].
    injection H as <-. simpl. rewrite (IH vs eq_refl). reflexivity.
Qed.

Lemma floats_of_app (py_float : string -> option R) (a b : list string) :
  floats_of py_float (a ++ b) =
  match floats_of py_float a, floats_of py_float b with
  | Some va, Some vb => Some (va ++ vb)
  | _, _ => None
  end.
Proof.
  induction a as [|x a IH]; simpl.
  - destruct (floats_of py_float b); reflexivity.
  - destruct (py_float x); [|reflexivity]. rewrite IH.
    destruct (floats_of py_float a), (floats_of py_float b); reflexivity.
Qed.

Lemma parse_across_comma
    (py_float : string -> option R) (s t : string) :
  parse_confidence_levels py_float (String.append s (String "," t)) =
  match parse_confidence_levels py_float s, parse_confidence_levels py_float t with
  | Some levels, Some levels' => Some (levels ++ levels')
  | _, _ => None
  end.
Proof.
  unfold parse_confidence_levels. rewrite split_commas_append.
  apply floats_of_app.
Qed.

(** The text of the levels is read piece by piece: a text with a comma
    in it is accepted exactly when the part before the comma and the
    part after it are, and its levels are those of the first part
    followed by those of the second. *)
Theorem levels_are_read_piecewise
    (py_float : string -> option R) (s t : string) :
  parse_confidence_levels py_float (String.append s (String "," t)) =
  match parse_confidence_levels py_float s, parse_confidence_levels py_float t with
  | Some levels, Some levels' => Some (levels ++ levels')
  | _, _ => None
  end.
Proof.
  unfold parse_confidence_levels. rewrite split_commas_append.
  apply floats_of_app.
Qed.

(** A text that is accepted yields one level more than it has commas,
    and joining its comma-separated pieces gives the text back. *)
Theorem levels_count_commas
    (py_float : string -> option R) (confidence_input : string) (levels : list R) :
  parse_confidence_levels py_float confidence_input = Some levels ->
  length levels = S (count_commas confidence_input) /\
  join_commas (split_commas confidence_input) = confidence_input.
Proof.
  unfold parse_confidence_levels. intros H.
  rewrite (floats_of_length py_float _ levels H), split_commas_length.
  split; [reflexivity | apply join_split_commas].
Qed.

Lemma levels_count_commas_witness :
  length [1 / 2; 1 / 4] = S (count_commas "0.5, 0.25") /\
  join_commas (split_commas "0.5, 0.25") = "0.5, 0.25"%string.
Proof.
  apply (levels_count_commas toy_float "0.5, 0.25" [1 / 2; 1 / 4]).
  reflexivity.
Defined.

(** Since [float] raises on the empty text, a text of levels that is
    empty, that begins or ends with a comma, or that has two commas in
    a row, is refused as a whole. *)
Theorem empty_piece_is_refused (py_float : string -> option R) :
  py_float EmptyString = None ->
  parse_confidence_levels py_float EmptyString = None /\
  (forall s, parse_confidence_levels py_float
               (String.append s (String "," EmptyString)) = None) /\
  (forall s, parse_confidence_levels py_float (String "," s) = None) /\
  (forall s t, parse_confidence_levels py_float
                 (String.append s (String "," (String "," t))) = None).
Proof.
  intros Hempty.
  assert (H0 : parse_confidence_levels py_float EmptyString = None)
    by (unfold parse_confidence_levels; simpl; rewrite Hempty; reflexivity).
  assert (Hfront : forall s, parse_confidence_levels py_float (String "," s) = None).
  { intros s.
    change (String "," s) with (String.append EmptyString (String "," s)).
    rewrite parse_across_comma, H0. reflexivity. }
  split; [exact H0|]. split; [|split; [exact Hfront|]].
  - intros s. rewrite parse_across_comma, H0.
    destruct (parse_confidence_levels py_float s); reflexivity.
  - intros s t. rewrite parse_across_comma, Hfront.
    destruct (parse_confidence_levels py_float s); reflexivity.
Qed.

Lemma empty_piece_is_refused_witness :
  parse_confidence_levels toy_float EmptyString = None /\
  (forall s, parse_confidence_levels toy_float
               (String.append s (String "," EmptyString)) = None) /\
  (forall s, parse_confidence_levels toy_float (String "," s) = None) /\
  (forall s t, parse_confidence_levels toy_float
                 (String.append s (String "," (String "," t))) = None).
Proof.
  apply (empty_piece_is_refused toy_float).
  reflexivity.
Defined.

(** ** The page *)

Lemma removelast_keeps {A} (p : A -> bool) (x : A) (l : list A) :
  p x = true ->
  forallb p (removelast l) = true ->
  forallb p (removelast (x :: l)) = true.
Proof.
  intros Hx Hl. destruct l as [|y l]; [reflexivity|].
  change (removelast (x :: y :: l)) with (x :: removelast (y :: l)).
  simpl forallb. rewrite Hx. exact Hl.
Qed.

Lemma removelast_keeps_app {A} (p : A -> bool) (l1 l2 : list A) :
  forallb p l1 = true ->
  forallb p (removelast l2) = true ->
  forallb p (removelast (l1 ++ l2)) = true.
Proof.
  induction l1 as [|x l1 IH]; simpl app; intros H1 H2; [exact H2|].
  simpl in H1. apply andb_prop in H1. destruct H1 as [Hx H1].
  apply removelast_keeps; [exact Hx | apply IH; assumption].
Qed.

Section PageFacts.

Variable DF : Type.
Variable read_csv : UploadedFile -> outcome DF.
Variable read_excel : UploadedFile -> outcome DF.
Variable df_empty : DF -> bool.
Variable numeric_columns_of : DF -> list string.
Variable column_dropna : DF -> string -> list R.
Variable py_float : string -> option R.
Variable hist_error : list R -> option string.
Variable int_percent : R -> outcome BinNums.Z.
Variable ppf : R -> value.

Local Abbreviation page :=
  (main read_csv read_excel df_empty numeric_columns_of column_dropna
     py_float hist_error int_percent ppf).

Lemma written_lines (d : dict interval) :
  Forall (fun c : st_call DF => exists p iv, c = st_write_interval p iv)
    (fst (write_intervals int_percent d)).
Proof.
  induction d as [|[c iv] d IH]; simpl; [constructor|].
  destruct (int_percent c) as [p|e]; [|constructor].
  destruct (write_intervals int_percent d) as [written raised].
  constructor; [exists p, iv; reflexivity | exact IH].
Qed.

Lemma written_lines_no_error (d : dict interval) :
  forallb (fun c : st_call DF => negb (is_error c))
    (fst (write_intervals int_percent d)) = true.
Proof.
  apply forallb_forall. intros c Hc.
  pose proof (written_lines d) as H. rewrite Forall_forall in H.
  destruct (H c Hc) as (p & iv & ->). reflexivity.
Qed.

Lemma written_lines_only (d : dict interval) (c : st_call DF) :
  In c (fst (write_intervals int_percent d)) ->
  exists p iv, c = st_write_interval p iv.
Proof.
  pose proof (written_lines d) as H. rewrite Forall_forall in H. apply H.
Qed.

Lemma written_all (f : R -> interval) (l : list R) :
  (forall c, In c l -> exists p, int_percent c = Returned p) ->
  write_intervals (DF := DF) int_percent (map (fun c => (c, f c)) l) =
  (map (fun c => st_write_interval (percent_or_zero int_percent c) (f c)) l,
   None).
Proof.
  induction l as [|c l IH]; intros Hl; [reflexivity|].
  cbn [map write_intervals]. unfold percent_or_zero at 1.
  destruct (Hl c (or_introl eq_refl)) as [p Hp]. rewrite Hp.
  rewrite IH by (intros c' Hc'; apply Hl; right; exact Hc'). reflexivity.
Qed.

Lemma written_to_the_end (d : dict interval) :
  snd (write_intervals (DF := DF) int_percent d) = None ->
  Forall (fun c => exists p, int_percent c = Returned p) (dict_keys d).
Proof.
  induction d as [|[c iv] d IH]; simpl; intros H; [constructor|].
  destruct (int_percent c) as [p|e] eqn:Hp; [|discriminate H].
  destruct (write_intervals int_percent d) as [written raised].
  constructor; [exists p; exact Hp | apply IH; exact H].
Qed.

(** A run of [main] never goes on after an error message: of the calls
    that it makes, none but the last is [st.error]. *)
Theorem error_ends_the_page
    (uploaded_file : option UploadedFile) (selection : list string -> string)
    (confidence_input : string) (se_value : R) :
  forallb (fun c => negb (is_error c))
    (removelast (page uploaded_file selection confidence_input se_value)) = true.
Proof.
  unfold main.
  repeat (apply removelast_keeps; [reflexivity|]).
  destruct uploaded_file as [f|]; [|reflexivity].
  destruct (read_file read_csv read_excel f) as [[df|]|e]; try reflexivity.
  destruct (df_empty df); [reflexivity|].
  repeat (apply removelast_keeps; [reflexivity|]).
  destruct (numeric_columns_of df) as [|column columns]; [reflexivity|].
  apply removelast_keeps; [reflexivity|].
  destruct (truthy (selection (column :: columns))); [|reflexivity].
  destruct (result (validate_data _)) as [is_valid error_message].
  destruct is_valid; [|reflexivity]. cbn [negb].
  apply removelast_keeps; [reflexivity|].
  unfold plot_distribution.
  destruct (hist_error _); [reflexivity|].
  apply removelast_keeps_app; [reflexivity|].
  repeat (apply removelast_keeps; [reflexivity|]).
  destruct (parse_confidence_levels py_float confidence_input) as [levels|];
    [|reflexivity].
  destruct (result (calculate_confidence_intervals ppf _ levels)) as [mean d].
  apply removelast_keeps; [reflexivity|].
  pose proof (written_lines_no_error d) as Hlines.
  destruct (write_intervals int_percent d) as [written [e|]]; cbn [fst] in Hlines;
    (apply removelast_keeps_app; [exact Hlines|]); [reflexivity|].
  repeat (apply removelast_keeps; [reflexivity|]).
  destruct (result (calculate_confidence_interval_se _ se_value)); reflexivity.
Qed.

Lemma validate_data_cases (data : list R) :
  (length data < 2)%nat /\
  result (validate_data data) = (false, Some not_enough_data) \/
  (2 <= length data)%nat /\ result (validate_data data) = (true, None).
Proof.
  unfold validate_data.
  destruct (Nat.ltb_spec (length data) 2) as [H|H]; [left | right];
    split; try exact H; reflexivity.
Qed.

(** The message that there is not enough data for the interval by
    standard errors is never shown: [main] reaches that calculator
    only with a sample that [validate_data] has accepted, for which it
    returns an interval. *)
Theorem se_error_is_never_shown
    (uploaded_file : option UploadedFile) (selection : list string -> string)
    (confidence_input : string) (se_value : R) :
  ~ In (st_error not_enough_for_se)
       (page uploaded_file selection confidence_input se_value).
Proof.
  unfold main, error_reading_file. intros Hin.
  destruct Hin as [H|[H|Hin]]; try discriminate H.
  destruct uploaded_file as [f|];
    [|destruct Hin as [H|[]]; discriminate H].
  destruct (read_file read_csv read_excel f) as [[df|]|e];
    try (destruct Hin as [H|[]]; discriminate H).
  destruct (df_empty df); [destruct Hin as [H|[]]; discriminate H|].
  destruct Hin as [H|[H|Hin]]; try discriminate H.
  destruct (numeric_columns_of df) as [|column columns];
    [destruct Hin as [H|[]]; discriminate H|].
  destruct Hin as [H|Hin]; [discriminate H|].
  destruct (truthy (selection (column :: columns))); [|destruct Hin].
  destruct (validate_data_cases
              (column_dropna df (selection (column :: columns))))
    as [[Hn Hv]|[Hn Hv]]; rewrite Hv in Hin; cbn [negb] in Hin.
  - destruct Hin as [H|[]]. discriminate H.
  - destruct Hin as [H|Hin]; [discriminate H|].
    unfold plot_distribution in Hin.
    destruct (hist_error _); [destruct Hin as [H|[]]; discriminate H|].
    apply in_app_or in Hin. destruct Hin as [[H|[]]|Hin]; [discriminate H|].
    destruct Hin as [H|[H|Hin]]; try discriminate H.
    destruct (parse_confidence_levels py_float confidence_input) as [levels|];
      [|destruct Hin as [H|[]]; discriminate H].
    rewrite se_calculator_large in Hin by exact Hn.
    destruct (result (calculate_confidence_intervals ppf _ levels)) as [mean d].
    destruct Hin as [H|Hin]; [discriminate H|].
    pose proof (written_lines_only d) as Hlines.
    destruct (write_intervals int_percent d) as [written [e|]];
      cbn [fst] in Hlines; apply in_app_or in Hin; destruct Hin as [Hin|Hin];
      try (destruct (Hlines _ Hin) as (p & iv & H); discriminate H).
    + destruct Hin as [H|[]]. discriminate H.
    + cbn [result fst] in Hin.
      destruct Hin as [H|[H|[H|[]]]]; discriminate H.
Qed.

Lemma z_interval_as_computed (data : list R) (c : R) :
  (2 <= length data)%nat ->
  z_interval ppf data c = interval_for data (z_of ppf c).
Proof.
  intros Hn. unfold z_interval, interval_for, margin_of_error, around.
  rewrite np_mean_average, np_std_sample by lia.
  rewrite vsqrt_num by apply pos_INR.
  rewrite vdiv_num by (pose proof (sqrt_length_pos data ltac:(lia)); lra).
  reflexivity.
Qed.

Lemma se_interval_as_computed (data : list R) (k : R) :
  (2 <= length data)%nat ->
  result (calculate_confidence_interval_se data k) =
  Some (interval_for data (Num k)).
Proof.
  intros Hn. rewrite se_calculator_large by exact Hn.
  unfold interval_for, margin_of_error, around.
  rewrite np_mean_average, np_std_sample by lia.
  rewrite vsqrt_num by apply pos_INR.
  rewrite vdiv_num by (pose proof (sqrt_length_pos data ltac:(lia)); lra).
  reflexivity.
Qed.

(** What [main] shows of the results is what the calculators returned
    for the chosen column: a sample mean is shown only after a file was
    read into a frame with data, a column with at least two values was
    chosen, the histogram was drawn and the text of the levels was
    accepted, and it is [np.mean] of the column; an interval by
    standard errors is shown only if moreover the percentage of every
    level of the mapping could be formed, and it is the interval of
    the column for the multiplier that was entered. *)
Theorem results_need_valid_input
    (uploaded_file : option UploadedFile) (selection : list string -> string)
    (confidence_input : string) (se_value : R)
    (mean : value) (k : R) (iv : interval) :
  In (st_write_mean mean)
     (page uploaded_file selection confidence_input se_value) \/
  In (st_write_se_interval k iv)
     (page uploaded_file selection confidence_input se_value) ->
  exists f df levels,
    uploaded_file = Some f /\
    read_file read_csv read_excel f = Returned (Some df) /\
    df_empty df = false /\
    parse_confidence_levels py_float confidence_input = Some levels /\
    let data := column_dropna df (selection (numeric_columns_of df)) in
    (2 <= length data)%nat /\
    hist_error data = None /\
    (In (st_write_mean mean)
        (page uploaded_file selection confidence_input se_value) ->
     mean = np_mean data) /\
    (In (st_write_se_interval k iv)
        (page uploaded_file selection confidence_input se_value) ->
     k = se_value /\
     iv = interval_for data (Num se_value) /\
     Forall (fun c => exists p, int_percent c = Returned p)
       (dict_keys
          (snd (result (calculate_confidence_intervals ppf data levels))))).
Proof.
  unfold main, error_reading_file. intros Hin.
  destruct uploaded_file as [f|];
    [|exfalso; destruct Hin as [Hin|Hin];
      repeat (destruct Hin as [H|Hin]; [discriminate H|]); destruct Hin].
  destruct (read_file read_csv read_excel f) as [[df|]|e] eqn:Hread;
    try (exfalso; destruct Hin as [Hin|Hin];
         repeat (destruct Hin as [H|Hin]; [discriminate H|]); destruct Hin).
  destruct (df_empty df) eqn:Hempty;
    [exfalso; destruct Hin as [Hin|Hin];
     repeat (destruct Hin as [H|Hin]; [discriminate H|]); destruct Hin|].
  destruct (numeric_columns_of df) as [|column columns] eqn:Hcols;
    [exfalso; destruct Hin as [Hin|Hin];
     repeat (destruct Hin as [H|Hin]; [discriminate H|]); destruct Hin|].
  destruct (truthy (selection (column :: columns)));
    [|exfalso; destruct Hin as [Hin|Hin];
      repeat (destruct Hin as [H|Hin]; [discriminate H|]); destruct Hin].
  destruct (validate_data_cases
              (column_dropna df (selection (column :: columns))))
    as [[Hn Hv]|[Hn Hv]]; rewrite Hv in *; cbn [negb] in *;
    [exfalso; destruct Hin as [Hin|Hin];
     repeat (destruct Hin as [H|Hin]; [discriminate H|]); destruct Hin|].
  unfold plot_distribution in *.
  destruct (hist_error (column_dropna df (selection (column :: columns))))
    eqn:Hhist;
    [exfalso; destruct Hin as [Hin|Hin];
     repeat (destruct Hin as [H|Hin]; [discriminate H|]); destruct Hin|].
  cbn [app] in *.
  destruct (parse_confidence_levels py_float confidence_input)
    as [levels|] eqn:Hparse;
    [|exfalso; destruct Hin as [Hin|Hin];
      repeat (destruct Hin as [H|Hin]; [discriminate H|]); destruct Hin].
  clear Hin.
  exists f, df, levels.
  split; [reflexivity|]. split; [exact Hread|]. split; [exact Hempty|].
  split; [reflexivity|]. cbv zeta. rewrite Hcols.
  split; [exact Hn|]. split; [exact Hhist|].
  rewrite se_interval_as_computed by exact Hn.
  rewrite z_calculator_large by exact Hn. cbn [result fst snd].
  rewrite <- (np_mean_average
                (column_dropna df (selection (column :: columns)))) by lia.
  set (d := assign_all _ levels []).
  pose proof (written_lines_only d) as Hlines.
  pose proof (written_to_the_end d) as Hend.
  destruct (write_intervals int_percent d) as [written raised].
  cbn [fst snd] in Hlines, Hend.
  split.
  - intros Hin.
    repeat (destruct Hin as [H|Hin]; [discriminate H|]).
    destruct Hin as [H|Hin]; [injection H as H; symmetry; exact H|].
    exfalso. destruct raised as [e|]; apply in_app_or in Hin;
      destruct Hin as [Hin|Hin];
      try (destruct (Hlines _ Hin) as (p & iv' & H); discriminate H);
      repeat (destruct Hin as [H|Hin]; [discriminate H|]); destruct Hin.
  - intros Hin.
    repeat (destruct Hin as [H|Hin]; [discriminate H|]).
    destruct raised as [e|]; apply in_app_or in Hin;
      destruct Hin as [Hin|Hin];
      try (destruct (Hlines _ Hin) as (p & iv' & H); discriminate H).
    + exfalso. repeat (destruct Hin as [H|Hin]; [discriminate H|]). destruct Hin.
    + destruct Hin as [H|[H|[H|[]]]]; try discriminate H.
      injection H as Hk Hiv.
      split; [symmetry; exact Hk|]. split; [symmetry; exact Hiv|].
      apply Hend. reflexivity.
Qed.

(** A run on a readable file with data, a numeric column of at least
    two values, a histogram that is drawn, an accepted text of levels
    and a percentage for each of them shows no error and ends with the
    results: the mean, then one line for every distinct level in the
    order of first occurrence, each with its interval, then the
    heading and the input of the second method and the interval by
    standard errors. *)
Theorem page_of_a_good_run
    (f : UploadedFile) (df : DF) (selection : list string -> string)
    (confidence_input : string) (levels : list R) (se_value : R) :
  read_file read_csv read_excel f = Returned (Some df) ->
  df_empty df = false ->
  numeric_columns_of df <> [] ->
  truthy (selection (numeric_columns_of df)) = true ->
  (2 <= length (column_dropna df (selection (numeric_columns_of df))))%nat ->
  hist_error (column_dropna df (selection (numeric_columns_of df))) = None ->
  parse_confidence_levels py_float confidence_input = Some levels ->
  (forall c, In c levels -> exists p, int_percent c = Returned p) ->
  let data := column_dropna df (selection (numeric_columns_of df)) in
  exists before : list (st_call DF),
    forallb (fun c => negb (is_error c)) before = true /\
    page (Some f) selection confidence_input se_value =
    before ++
    st_write_mean (np_mean data) ::
    map (fun c =>
           st_write_interval (percent_or_zero int_percent c)
             (interval_for data (z_of ppf c)))
        (first_occurrences levels) ++
    [st_subheader "Confidence Interval based on Standard Errors"%string;
     st_number_input
       "Enter the number of standard errors (e.g., 1.96 for 95%)"%string
       0 (196 / 100) (1 / 100);
     st_write_se_interval se_value (interval_for data (Num se_value))].
Proof.
  intros Hread Hempty Hcols Htruthy Hn Hhist Hparse Hpercent. cbv zeta.
  unfold main. rewrite Hread, Hempty.
  destruct (numeric_columns_of df) as [|column columns];
    [contradiction Hcols; reflexivity|].
  rewrite Htruthy.
  destruct (validate_data_cases
              (column_dropna df (selection (column :: columns))))
    as [[Hshort _]|[_ Hv]]; [lia|].
  unfold plot_distribution. rewrite Hv, Hhist, Hparse. cbn [negb].
  rewrite se_interval_as_computed by exact Hn.
  rewrite z_calculator_large by exact Hn.
  cbn [result fst snd]. rewrite assign_all_from_empty.
  rewrite written_all
    by (intros c Hc; apply Hpercent, first_occurrences_incl, Hc).
  rewrite <- (np_mean_average
                (column_dropna df (selection (column :: columns)))) by lia.
  rewrite (map_ext_in _
             (fun c => st_write_interval (percent_or_zero int_percent c)
                         (interval_for
                            (column_dropna df (selection (column :: columns)))
                            (z_of ppf c))))
    by (intros c _; rewrite z_interval_as_computed by exact Hn; reflexivity).
  cbn [app].
  eexists (_ :: _ :: _ :: _ :: _ :: _ :: _ :: _ :: [_]).
  split; [|reflexivity]. reflexivity.
Qed.

End PageFacts.

Lemma toy_page_shows_results :
  In (st_write_mean (np_mean [1; 3]))
     (main toy_reader toy_reader toy_empty toy_columns toy_column toy_float
        toy_hist toy_percent uniform_ppf
        (Some {| name := "x.csv"; content := "" |}) first_option "0.5" 2).
Proof.
  unfold main, read_file, toy_reader, toy_empty, toy_columns, toy_column,
    first_option, plot_distribution, toy_hist.
  cbn [name endswith String.eqb Ascii.eqb Bool.eqb map fst truthy present].
  cbn [validate_data length Nat.ltb Nat.leb result ret fst snd negb].
  cbn [parse_confidence_levels split_commas floats_of toy_float
         String.eqb Ascii.eqb Bool.eqb].
  rewrite z_calculator_large by (simpl; lia).
  rewrite np_mean_average by (simpl; lia).
  cbn [result fst snd app In]. do 9 right. left. reflexivity.
Qed.

Lemma toy_percent_of_level (c : R) :
  0 <= c -> c <= 1 -> exists p, toy_percent c = Returned p.
Proof.
  intros H0 H1. unfold toy_percent.
  destruct (Rle_dec 0 c); [|contradiction].
  destruct (Rle_dec c 1); [|contradiction].
  eexists. reflexivity.
Qed.

Lemma results_need_valid_input_witness :
  exists f df levels,
    Some {| name := "x.csv"; content := "" |} = Some f /\
    read_file toy_reader toy_reader f = Returned (Some df) /\
    toy_empty df = false /\
    parse_confidence_levels toy_float "0.5" = Some levels /\
    let data := toy_column df (first_option (toy_columns df)) in
    (2 <= length data)%nat /\
    toy_hist data = None /\
    (In (st_write_mean (np_mean [1; 3]))
        (main toy_reader toy_reader toy_empty toy_columns toy_column toy_float
           toy_hist toy_percent uniform_ppf
           (Some {| name := "x.csv"; content := "" |}) first_option "0.5" 2) ->
     np_mean [1; 3] = np_mean data) /\
    (In (st_write_se_interval 0 (NaN, NaN))
        (main toy_reader toy_reader toy_empty toy_columns toy_column toy_float
           toy_hist toy_percent uniform_ppf
           (Some {| name := "x.csv"; content := "" |}) first_option "0.5" 2) ->
     0 = 2 /\
     (NaN, NaN) = interval_for data (Num 2) /\
     Forall (fun c => exists p, toy_percent c = Returned p)
       (dict_keys
          (snd (result (calculate_confidence_intervals uniform_ppf data
                          levels))))).
Proof.
  apply (results_need_valid_input toy_frame toy_reader toy_reader toy_empty
           toy_columns toy_column toy_float toy_hist toy_percent uniform_ppf
           (Some {| name := "x.csv"; content := "" |}) first_option "0.5" 2
           (np_mean [1; 3]) 0 (NaN, NaN)).
  left. exact toy_page_shows_results.
Defined.

Lemma page_of_a_good_run_witness :
  let df : toy_frame := [("x"%string, [Some 1; None; Some 3])] in
  let data := toy_column df (first_option (toy_columns df)) in
  exists before : list (st_call toy_frame),
    forallb (fun c => negb (is_error c)) before = true /\
    main toy_reader toy_reader toy_empty toy_columns toy_column toy_float
      toy_hist toy_percent uniform_ppf
      (Some {| name := "x.csv"; content := "" |}) first_option "0.5, 0.25" 2 =
    before ++
    st_write_mean (np_mean data) ::
    map (fun c =>
           st_write_interval (percent_or_zero toy_percent c)
             (interval_for data (z_of uniform_ppf c)))
        (first_occurrences [1 / 2; 1 / 4]) ++
    [st_subheader "Confidence Interval based on Standard Errors"%string;
     st_number_input
       "Enter the number of standard errors (e.g., 1.96 for 95%)"%string
       0 (196 / 100) (1 / 100);
     st_write_se_interval 2 (interval_for data (Num 2))].
Proof.
  apply (page_of_a_good_run toy_frame toy_reader toy_reader toy_empty
           toy_columns toy_column toy_float toy_hist toy_percent uniform_ppf
           {| name := "x.csv"; content := "" |}
           [("x"%string, [Some 1; None; Some 3])] first_option
           "0.5, 0.25" [1 / 2; 1 / 4] 2).
  - reflexivity.
  - reflexivity.
  - discriminate.
  - reflexivity.
  - simpl; lia.
  - reflexivity.
  - reflexivity.
  - intros c [<-|[<-|[]]]; apply toy_percent_of_level; lra.
Defined.


Example default_levels_text :
  split_commas "0.90, 0.95, 0.99" = ["0.90"; " 0.95"; " 0.99"]%string.
Proof. reflexivity. Qed.

(** ** The calculators in binary64 *)

Module Binary64.

Import Floats.
Local Open Scope float_scope.

Lemma se_calculator_run (data : list float) (k : float) :
  F64.calculate_confidence_interval_se data k =
  if (length data <=? 1)%nat then (None, [Call_mean; Call_std 1])
  else (Some (F64.np_mean data - F64.margin_of data k,
              F64.np_mean data + F64.margin_of data k),
        [Call_mean; Call_std 1; Call_sqrt]).
Proof.
  unfold F64.calculate_confidence_interval_se.
  destruct (length data <=? 1)%nat; reflexivity.
Qed.

Lemma z_calculator_run (ppf : float -> float) (data levels : list float) :
  F64.calculate_confidence_intervals ppf data levels =
  if (length data <=? 1)%nat
  then ((F64.np_mean data, []), [Call_mean; Call_std 1])
  else ((F64.np_mean data, F64.assign_all (F64.z_interval ppf data) levels []),
        Call_mean :: Call_std 1 ::
        flat_map (fun _ => [Call_ppf; Call_sqrt]) levels).
Proof.
  unfold F64.calculate_confidence_intervals.
  destruct (length data <=? 1)%nat; [reflexivity|].
  unfold F64.np.mean, F64.np.std, logged. cbn [bind].
  rewrite (for_each_run _
             (fun c d => F64.dict_set c (F64.z_interval ppf data c) d)
             [Call_ppf; Call_sqrt]) by reflexivity.
  cbn [bind ret]. rewrite app_nil_r. reflexivity.
Qed.

(** Looking up a level in the dictionary that the loop builds. *)

Lemma key_found_after_set {V} (c : float) (v : V) (d : F64.dict V) :
  (c =? c) = true -> F64.dict_get c (F64.dict_set c v d) = Some v.
Proof.
  intros Hc. induction d as [|[k' v'] d IH]; simpl.
  - rewrite Hc. reflexivity.
  - destruct (k' =? c) eqn:E; simpl; rewrite E; [reflexivity | exact IH].
Qed.

Lemma key_kept_by_other_set {V} (L : list float) (c a : float) (v : V)
    (d : F64.dict V) :
  F64.own_key c L -> In a L -> a <> c ->
  (forall kv, In kv d -> In (fst kv) L) ->
  F64.dict_get c (F64.dict_set a v d) = F64.dict_get c d.
Proof.
  intros [Hc Hown] Ha Hac. induction d as [|[k' v'] d IH]; intros Hd; simpl.
  - destruct (a =? c) eqn:E; [|reflexivity].
    contradiction Hac. apply Hown; [exact Ha | right; exact E].
  - assert (Hk' : In k' L) by (apply (Hd (k', v')); left; reflexivity).
    destruct (k' =? a) eqn:Eka; simpl.
    + destruct (k' =? c) eqn:Ekc; [|reflexivity].
      assert (k' = c) by (apply Hown; [exact Hk' | right; exact Ekc]).
      subst k'. contradiction Hac. apply Hown; [exact Ha | left; exact Eka].
    + destruct (k' =? c); [reflexivity|].
      apply IH. intros kv Hkv. apply Hd. right. exact Hkv.
Qed.

Lemma dict_set_keys {V} (L : list float) (a : float) (v : V) (d : F64.dict V) :
  In a L ->
  (forall kv, In kv d -> In (fst kv) L) ->
  forall kv, In kv (F64.dict_set a v d) -> In (fst kv) L.
Proof.
  intros Ha. induction d as [|[k' v'] d IH]; intros Hd kv; simpl.
  - intros [<-|[]]. exact Ha.
  - destruct (k' =? a); intros [<-|Hkv].
    + apply (Hd (k', v')). left. reflexivity.
    + apply Hd. right. exact Hkv.
    + apply (Hd (k', v')). left. reflexivity.
    + apply IH; [|exact Hkv]. intros kv' Hkv'. apply Hd. right. exact Hkv'.
Qed.

Lemma assign_all_snoc {V} (f : float -> V) (l : list float) (a : float)
    (d : F64.dict V) :
  F64.assign_all f (l ++ [a]) d = F64.dict_set a (f a) (F64.assign_all f l d).
Proof. unfold F64.assign_all. rewrite fold_left_app. reflexivity. Qed.

Lemma assign_all_keys {V} (L : list float) (f : float -> V) (l : list float) :
  (forall a, In a l -> In a L) ->
  forall kv, In kv (F64.assign_all f l []) -> In (fst kv) L.
Proof.
  induction l as [|a l IH] using rev_ind; intros Hl; [intros kv []|].
  rewrite assign_all_snoc. apply dict_set_keys.
  - apply Hl, in_or_app. right. left. reflexivity.
  - apply IH. intros b Hb. apply Hl, in_or_app. left. exact Hb.
Qed.

Lemma dict_get_assigned {V} (L : list float) (f : float -> V) (c : float)
    (l : list float) :
  F64.own_key c L ->
  (forall a, In a l -> In a L) ->
  In c l ->
  F64.dict_get c (F64.assign_all f l []) = Some (f c).
Proof.
  intros Hown. induction l as [|a l IH] using rev_ind; intros Hl Hc;
    [contradiction|].
  rewrite assign_all_snoc.
  assert (Hl' : forall b, In b l -> In b L)
    by (intros b Hb; apply Hl, in_or_app; left; exact Hb).
  assert (Ha : In a L) by (apply Hl, in_or_app; right; left; reflexivity).
  destruct (a =? c) eqn:E.
  - assert (a = c) by (apply (proj2 Hown); [exact Ha | right; exact E]).
    subst a. apply key_found_after_set, (proj1 Hown).
  - assert (Hac : a <> c).
    { intros ->. rewrite (proj1 Hown) in E. discriminate E. }
    rewrite (key_kept_by_other_set L) ; try assumption.
    + apply IH; [exact Hl'|].
      apply in_app_or in Hc. destruct Hc as [Hc|[Hc|[]]]; [exact Hc|].
      contradiction Hac.
    + apply assign_all_keys. exact Hl'.
Qed.

Lemma assign_all_values {V} (f : float -> V) (l : list float) :
  forall kv, In kv (F64.assign_all f l []) ->
             exists c, In c l /\ snd kv = f c.
Proof.
  induction l as [|a l IH] using rev_ind; [intros kv []|].
  rewrite assign_all_snoc.
  assert (Hset : forall d : F64.dict V,
             (forall kv, In kv d -> exists c, In c l /\ snd kv = f c) ->
             forall kv, In kv (F64.dict_set a (f a) d) ->
                        exists c, In c (l ++ [a]) /\ snd kv = f c).
  { induction d as [|[k' v'] d IHd]; intros Hd kv; simpl.
    - intros [<-|[]]. exists a. split; [apply in_or_app; right; left|]; reflexivity.
    - destruct (k' =? a); intros [<-|Hkv].
      + exists a. split; [apply in_or_app; right; left|]; reflexivity.
      + destruct (Hd kv (or_intror Hkv)) as (c & Hc & Hv).
        exists c. split; [apply in_or_app; left; exact Hc | exact Hv].
      + destruct (Hd (k', v') (or_introl eq_refl)) as (c & Hc & Hv).
        exists c. split; [apply in_or_app; left; exact Hc | exact Hv].
      + apply IHd; [|exact Hkv]. intros kv' Hkv'. apply Hd. right. exact Hkv'. }
  apply Hset. exact IH.
Qed.

(** Facts of IEEE 754 arithmetic. *)

Lemma zero_of_eqb (z : float) :
  (z =? 0) = true -> exists s, Prim2SF z = S754_zero s.
Proof.
  rewrite eqb_spec. change (Prim2SF 0) with (S754_zero false).
  destruct (Prim2SF z) as [s|s| |s m e]; unfold SFeqb; simpl; intros H;
    try discriminate H.
  - exists s. reflexivity.
  - destruct s; discriminate H.
  - destruct s; discriminate H.
Qed.

Lemma zero_margin (mean z : float) :
  (mean =? mean) = true -> (z =? 0) = true ->
  (mean - z =? mean) = true /\ (mean + z =? mean) = true.
Proof.
  intros Hm Hz. destruct (zero_of_eqb z Hz) as [s Hs].
  rewrite !eqb_spec, sub_spec, add_spec, Hs. rewrite eqb_spec in Hm.
  unfold SF64sub, SF64add.
  destruct (Prim2SF mean) as [sm|sm| |sm m e]; try discriminate Hm.
  - destruct sm, s; split; reflexivity.
  - destruct sm; split; reflexivity.
  - split; exact Hm.
Qed.

Lemma eqb_false_neq (x y : float) :
  (x =? x) = true -> (x =? y) = false -> x <> y.
Proof. intros Hx Hxy ->. rewrite Hx in Hxy. discriminate Hxy. Qed.

(** C1, as the specification states it, fails: the first component
    that [calculate_confidence_intervals] returns for the sample
    [[1e308, 1e308]] is not the arithmetic average [1e308] of the
    sample; the sum overflows and the mean is infinite. *)
Lemma mean_overflows :
  F64.np_mean [0x1.1ccf385ebc8ap+1023; 0x1.1ccf385ebc8ap+1023] = infinity /\
  ~ (exists ppf : float -> float,
       fst (result (F64.calculate_confidence_intervals ppf
                      [0x1.1ccf385ebc8ap+1023; 0x1.1ccf385ebc8ap+1023]
                      [0x1.e666666666666p-1])) =
       0x1.1ccf385ebc8ap+1023).
Proof.
  split; [vm_compute; reflexivity|].
  intros [ppf H]. rewrite z_calculator_run in H.
  cbn [length Nat.leb fst result] in H.
  revert H. apply not_eq_sym, eqb_false_neq; vm_compute; reflexivity.
Qed.

(** C1, amended.  On a sample with at least two observations,
    [calculate_confidence_intervals] returns [np.mean] of the sample as
    its first component and associates with a level [c] of the supplied
    sequence the interval [(mean - margin, mean + margin)], where
    [margin = z * (stddev / sqrt n)], [z] is the quantile function at
    [(1 + c) / 2] and [stddev] is [np.std] of the sample with
    [ddof = 1], every operation being that of binary64 (rounded, and
    infinite or [nan] on overflow).  The level is a number, and no
    other element of the sequence is the same dictionary key. *)
Theorem z_interval_computed
    (ppf : float -> float) (data levels : list float) (c : float) :
  (2 <= length data)%nat ->
  In c levels ->
  F64.own_key c levels ->
  let mean := F64.np_mean data in
  let stddev := F64.np_std data 1 in
  let z := ppf ((1 + c) / 2) in
  let margin := z * (stddev / sqrt (F64.of_nat (length data))) in
  let r := result (F64.calculate_confidence_intervals ppf data levels) in
  fst r = mean /\
  F64.dict_get c (snd r) = Some (mean - margin, mean + margin).
Proof.
  intros Hn Hc Hown. cbv zeta. rewrite z_calculator_run.
  assert (Hleb : (length data <=? 1)%nat = false) by (apply Nat.leb_gt; lia).
  rewrite Hleb. cbn [result fst snd]. split; [reflexivity|].
  rewrite (dict_get_assigned levels) by (try assumption; intros a Ha; exact Ha).
  reflexivity.
Qed.

Lemma own_key_half : F64.own_key 0.5 [0.5].
Proof.
  split; [reflexivity|]. intros c' [<-|[]] _. reflexivity.
Qed.

Lemma z_interval_computed_witness :
  let mean := F64.np_mean [1; 3] in
  let stddev := F64.np_std [1; 3] 1 in
  let z := F64.uniform_ppf ((1 + 0.5) / 2) in
  let margin := z * (stddev / sqrt (F64.of_nat 2)) in
  let r := result (F64.calculate_confidence_intervals F64.uniform_ppf
                     [1; 3] [0.5]) in
  fst r = mean /\
  F64.dict_get 0.5 (snd r) = Some (mean - margin, mean + margin).
Proof.
  apply (z_interval_computed F64.uniform_ppf [1; 3] [0.5] 0.5).
  - simpl; lia.
  - simpl; auto.
  - exact own_key_half.
Defined.

(** C2, as the specification states it, fails: on the sample
    [[1e200, -1e200]] the deviation that the calculators receive is
    infinite, not the square root of the sum of the squared deviations
    over [n - 1] (which is about [1.4e200]); the squares overflow. *)
Lemma deviation_overflows :
  F64.np_std [0x1.4e718d7d7625ap+664; -0x1.4e718d7d7625ap+664] 1 = infinity /\
  result (F64.calculate_confidence_interval_se
            [0x1.4e718d7d7625ap+664; -0x1.4e718d7d7625ap+664] 1) =
    Some (neg_infinity, infinity).
Proof. split; vm_compute; reflexivity. Qed.

(** C2, amended.  On a sample with at least two observations the
    moments that both calculators work with are, in binary64
    arithmetic, the sum of the sample over [n] and the square root of
    the sum of the squared deviations from that mean over [n - 1] (the
    denominator of the unbiased estimator, not [n]): the first
    component and every interval of [calculate_confidence_intervals]
    and the interval of [calculate_confidence_interval_se] are formed
    from these two values. *)
Theorem moments_received
    (ppf : float -> float) (data levels : list float) (k : float) :
  (2 <= length data)%nat ->
  let n := length data in
  let mean := F64.np_sum data / F64.of_nat n in
  let stddev :=
    sqrt (F64.np_sum (map (fun x => (x - mean) * (x - mean)) data) /
          F64.of_nat (n - 1)) in
  let standard_error := stddev / sqrt (F64.of_nat n) in
  let r := result (F64.calculate_confidence_intervals ppf data levels) in
  fst r = mean /\
  (forall kv, In kv (snd r) ->
     exists c, In c levels /\
       snd kv = (mean - ppf ((1 + c) / 2) * standard_error,
                 mean + ppf ((1 + c) / 2) * standard_error)) /\
  result (F64.calculate_confidence_interval_se data k) =
    Some (mean - k * standard_error, mean + k * standard_error) /\
  firstn 2 (calls (F64.calculate_confidence_intervals ppf data levels)) =
    [Call_mean; Call_std 1] /\
  firstn 2 (calls (F64.calculate_confidence_interval_se data k)) =
    [Call_mean; Call_std 1].
Proof.
  intros Hn. cbv zeta. rewrite z_calculator_run, se_calculator_run.
  assert (Hleb : (length data <=? 1)%nat = false) by (apply Nat.leb_gt; lia).
  rewrite Hleb. cbn [result calls fst snd firstn].
  assert (Hstd : F64.np_std data 1 =
                 sqrt (F64.np_sum
                         (map (fun x => (x - F64.np_mean data) *
                                        (x - F64.np_mean data)) data) /
                       F64.of_nat (length data - 1))).
  { unfold F64.np_std, F64.np_var. rewrite map_map. reflexivity. }
  change (F64.np_sum data / F64.of_nat (length data)) with (F64.np_mean data).
  rewrite <- Hstd.
  split; [reflexivity|]. split; [|repeat split].
  intros kv Hkv. destruct (assign_all_values _ _ kv Hkv) as (c & Hc & Hv).
  exists c. split; [exact Hc | exact Hv].
Qed.

Lemma moments_received_witness :
  let n := 2%nat in
  let mean := F64.np_sum [1; 3] / F64.of_nat n in
  let stddev :=
    sqrt (F64.np_sum (map (fun x => (x - mean) * (x - mean)) [1; 3]) /
          F64.of_nat (n - 1)) in
  let standard_error := stddev / sqrt (F64.of_nat n) in
  let r := result (F64.calculate_confidence_intervals F64.uniform_ppf
                     [1; 3] [0.5]) in
  fst r = mean /\
  (forall kv, In kv (snd r) ->
     exists c, In c [0.5] /\
       snd kv = (mean - F64.uniform_ppf ((1 + c) / 2) * standard_error,
                 mean + F64.uniform_ppf ((1 + c) / 2) * standard_error)) /\
  result (F64.calculate_confidence_interval_se [1; 3] 2) =
    Some (mean - 2 * standard_error, mean + 2 * standard_error) /\
  firstn 2 (calls (F64.calculate_confidence_intervals F64.uniform_ppf
                     [1; 3] [0.5])) =
    [Call_mean; Call_std 1] /\
  firstn 2 (calls (F64.calculate_confidence_interval_se [1; 3] 2)) =
    [Call_mean; Call_std 1].
Proof.
  apply (moments_received F64.uniform_ppf [1; 3] [0.5] 2).
  simpl; lia.
Defined.

(** C7, as the specification states it, fails: on the sample
    [[1e200, -1e200]], whose mean is [0.0], the multiplier zero does
    not give [(mean, mean)] but [(nan, nan)]; the deviation is infinite
    and zero times infinity is [nan]. *)
Lemma zero_multiplier_on_overflow :
  F64.np_mean [0x1.4e718d7d7625ap+664; -0x1.4e718d7d7625ap+664] = 0 /\
  result (F64.calculate_confidence_interval_se
            [0x1.4e718d7d7625ap+664; -0x1.4e718d7d7625ap+664] 0) =
    Some (nan, nan).
Proof. split; vm_compute; reflexivity. Qed.

(** C7, amended.  On a sample with at least two observations
    [calculate_confidence_interval_se] returns
    [(mean - margin, mean + margin)] with
    [margin = k * (stddev / sqrt n)] in binary64 arithmetic, for every
    multiplier; for the multiplier zero both ends equal the mean
    whenever the mean is a number and zero times the standard error is
    zero, that is, whenever the standard error is finite. *)
Theorem se_interval_computed (data : list float) (k : float) :
  (2 <= length data)%nat ->
  let mean := F64.np_mean data in
  let standard_error :=
    F64.np_std data 1 / sqrt (F64.of_nat (length data)) in
  result (F64.calculate_confidence_interval_se data k) =
    Some (mean - k * standard_error, mean + k * standard_error) /\
  ((mean =? mean) = true ->
   (0 * standard_error =? 0) = true ->
   exists lower upper,
     result (F64.calculate_confidence_interval_se data 0) =
       Some (lower, upper) /\
     (lower =? mean) = true /\ (upper =? mean) = true).
Proof.
  intros Hn. cbv zeta. rewrite !se_calculator_run.
  assert (Hleb : (length data <=? 1)%nat = false) by (apply Nat.leb_gt; lia).
  rewrite Hleb. cbn [result fst]. split; [reflexivity|].
  intros Hmean Hzero.
  exists (F64.np_mean data - F64.margin_of data 0),
         (F64.np_mean data + F64.margin_of data 0).
  split; [reflexivity|].
  apply zero_margin; [exact Hmean | exact Hzero].
Qed.

Lemma se_interval_computed_witness :
  let mean := F64.np_mean [1; 2; 3; 4; 5] in
  let standard_error :=
    F64.np_std [1; 2; 3; 4; 5] 1 / sqrt (F64.of_nat 5) in
  result (F64.calculate_confidence_interval_se [1; 2; 3; 4; 5] 2) =
    Some (mean - 2 * standard_error, mean + 2 * standard_error) /\
  ((mean =? mean) = true ->
   (0 * standard_error =? 0) = true ->
   exists lower upper,
     result (F64.calculate_confidence_interval_se [1; 2; 3; 4; 5] 0) =
       Some (lower, upper) /\
     (lower =? mean) = true /\ (upper =? mean) = true).
Proof.
  apply (se_interval_computed [1; 2; 3; 4; 5] 2).
  simpl; lia.
Defined.




End Binary64.
